(** * InternationalPhoneInput: the selection state machine and the country filter

    A shallow embedding of the logic of the [InternationalPhoneInput]
    component (src/unnamed/part_000): the memoised [finalCountryList], the
    initial country, the value-sync effect, [emitChange], [handleTextChange],
    [handleSelectCountry], [closeDropdown] and the imperative ref methods.

    Strings are JavaScript strings: sequences of UTF-16 code units.  The
    phone-number library (libphonenumber-js) and the country table
    (data/countryList) are not part of the sources; they are parameters of
    the development. *)

From Stdlib Require Import List ZArith NArith Bool Lia String Ascii Permutation.
Import ListNotations.

Set Implicit Arguments.

(** ** JavaScript strings *)

Module JS.

(** A string is the list of its UTF-16 code units. *)
Definition str := list N.

(** An ASCII literal as a JavaScript string. *)
Fixpoint lit (s : string) : str :=
  match s with
  | EmptyString => []
  | String a r => N_of_ascii a :: lit r
  end.

Fixpoint str_eqb (a b : str) : bool :=
  match a, b with
  | [], [] => true
  | x :: a', y :: b' => N.eqb x y && str_eqb a' b'
  | _, _ => false
  end.

(** [!s] is true exactly for the empty string. *)
Definition truthy (s : str) : bool :=
  match s with [] => false | _ :: _ => true end.

(** [arr.includes(x)] on an array of strings. *)
Definition includes (arr : list str) (x : str) : bool :=
  existsb (str_eqb x) arr.

(** [arr.indexOf(x)]: the first position of [x], or -1. *)
Fixpoint indexOf_from (arr : list str) (x : str) (i : Z) : Z :=
  match arr with
  | [] => (-1)%Z
  | y :: r => if str_eqb y x then i else indexOf_from r x (i + 1)
  end.

Definition indexOf (arr : list str) (x : str) : Z := indexOf_from arr x 0.

(** The character class [0-9]. *)
Definition isDigit (c : N) : bool := (48 <=? c)%N && (c <=? 57)%N.

(** The character class [\s] of a regular expression. *)
Definition isSpace (c : N) : bool :=
  ((9 <=? c)%N && (c <=? 13)%N)
  || N.eqb c 32 || N.eqb c 160 || N.eqb c 5760
  || ((8192 <=? c)%N && (c <=? 8202)%N)
  || N.eqb c 8232 || N.eqb c 8233 || N.eqb c 8239 || N.eqb c 8287
  || N.eqb c 12288 || N.eqb c 65279.

Definition plus_sign : N := 43.
Definition hyphen : N := 45.
Definition lparen : N := 40.
Definition rparen : N := 41.
Definition space : N := 32.

(** [s.replace(/[^0-9]/g, '')] *)
Definition stripNonDigits (s : str) : str := filter isDigit s.

(** [s.replace(/[^0-9+]/g, '')] *)
Definition stripNonDigitsPlus (s : str) : str :=
  filter (fun c => isDigit c || N.eqb c plus_sign) s.

(** The character class [0-9\s\-()]. *)
Definition isInputChar (c : N) : bool :=
  isDigit c || isSpace c || N.eqb c hyphen || N.eqb c lparen || N.eqb c rparen.

(** [/^[0-9\s\-()]*$/.test(s)] *)
Definition strictCharCheck (s : str) : bool := forallb isInputChar s.

(** [arr.sort(cmp)]: the sort is stable; an element stays in front of the
    elements it does not compare greater than. *)
Section Sort.
Variable A : Type.
Variable cmp : A -> A -> Z.

Fixpoint insert (a : A) (l : list A) : list A :=
  match l with
  | [] => [a]
  | b :: r => if (cmp a b <=? 0)%Z then a :: b :: r else b :: insert a r
  end.

Fixpoint sort (l : list A) : list A :=
  match l with
  | [] => []
  | a :: r => insert a (sort r)
  end.
End Sort.

(** The elements of [l] whose key is one of [s, s+1, ..., s+n-1], by
    increasing key and, for one key, in the order of [l]. *)
Definition grouped {A : Type} (key : A -> Z) (s n : nat) (l : list A) : list A :=
  flat_map (fun i => filter (fun c => (key c =? Z.of_nat i)%Z) l) (seq s n).

(** [a || b] on values that are either [undefined] or an object. *)
Definition orElse {A : Type} (a b : option A) : option A :=
  match a with Some _ => a | None => b end.

End JS.

Import JS.

(** ** Data model *)

(** Modelled from the spec: the [Country] type exported by data/countryList,
    which is not among the sources.  A record is {iso2, callingCode, name,
    flagRef}; the component reads [iso2], [callingCode] and [name], the flag
    is an opaque asset handle. *)
Record Country := {
  iso2 : str;
  callingCode : str;
  name : str;
  flagRef : N
}.

Inductive PickerType := dropdown | modal.

(** The props of the component that the logic reads.  An optional prop is
    [None] when it is not passed. *)
Record Props := {
  defaultCountry : option str;
  disabled : bool;
  preferredCountries : option (list str);
  allowedCountries : option (list str);
  excludedCountries : option (list str);
  pickerType : option PickerType
}.

(** ** The phone-number library *)

(** What the component observes of a [PhoneNumber] object: [country],
    [isValid()], [format('E.164')] and [format('NATIONAL')]. *)
Record PhoneNumber := {
  pn_country : option str;
  pn_isValid : bool;
  pn_e164 : str;
  pn_national : str
}.

(** A call of [parsePhoneNumber] either throws or returns a number or
    [undefined]. *)
Inductive ParseResult :=
| ParseThrows
| ParseReturns (p : option PhoneNumber).

(** A use of the formatter either returns or throws. *)
Inductive LibResult (A : Type) :=
| LibReturns (a : A)
| LibThrows.

Arguments LibThrows {A}.

(** The operations imported from libphonenumber-js.
    [parsePhoneNumber text country] is [parsePhoneNumber(text, country)]
    ([parsePhoneNumber(text)] when [country] is [None]).
    [asYouType_input country text] is [new AsYouType(country)] followed by
    [.input(text)] on it: the formatted text, or an exception of either.
    [asYouType_getNumber country text] is what follows on that formatter
    after the input has returned: [getNumber()] and the reading of the number
    it returns ([isValid()], [format(...)]): the number or [undefined], or an
    exception of any of them. *)
Record PhoneLib := {
  parsePhoneNumber : str -> option str -> ParseResult;
  asYouType_input : str -> str -> LibResult str;
  asYouType_getNumber : str -> str -> LibResult (option PhoneNumber)
}.

(** ** The country list *)

Section CountryList.
Variable countryList : list Country.
Variable props : Props.

(** [finalCountryList] (the [useMemo] over the three list props). *)
Definition finalCountryList : list Country :=
  let list := countryList in
  let list :=
    match allowedCountries props with
    | Some ((_ :: _) as allowed) =>
        filter (fun c => includes allowed (iso2 c)) list
    | _ => list
    end in
  let list :=
    match excludedCountries props with
    | Some ((_ :: _) as excluded) =>
        filter (fun c => negb (includes excluded (iso2 c))) list
    | _ => list
    end in
  match preferredCountries props with
  | Some ((_ :: _) as preferred_codes) =>
      let preferred := filter (fun c => includes preferred_codes (iso2 c)) list in
      let others := filter (fun c => negb (includes preferred_codes (iso2 c))) list in
      sort (fun a b => (indexOf preferred_codes (iso2 a)
                        - indexOf preferred_codes (iso2 b))%Z) preferred
      ++ others
  | _ => list
  end.

(** [defaultCountry = 'TR'] in the destructuring of the props. *)
Definition defaultCountryOrTR : str :=
  match defaultCountry props with
  | Some c => c
  | None => lit "TR"
  end.

(** The initial value of the [selectedCountry] state:
    [finalCountryList.find(c => c.iso2 === defaultCountry)
     || finalCountryList[0] || countryList[0]]; [None] is [undefined]. *)
Definition initialSelectedCountry : option Country :=
  orElse
    (orElse
       (find (fun c => str_eqb (iso2 c) defaultCountryOrTR) finalCountryList)
       (nth_error finalCountryList 0))
    (nth_error countryList 0).

End CountryList.

(** The filtered list as the specification words it: keep the allowed
    countries when the prop is set, drop the excluded ones when the prop is
    set, then put the members of the preference list first, by their position
    in that list, and the rest after them in directory order. *)
Definition positionsOf (codes : list str) : list nat := seq 0 (List.length codes).

Definition membersAt (codes : list str) (l : list Country) (i : nat) : list Country :=
  filter (fun c => (indexOf codes (iso2 c) =? Z.of_nat i)%Z) l.

Definition spec_filteredCountryList (directory : list Country)
    (allowed excluded preferred : option (list str)) : list Country :=
  let l := match allowed with
           | Some a => filter (fun c => includes a (iso2 c)) directory
           | None => directory
           end in
  let l := match excluded with
           | Some e => filter (fun c => negb (includes e (iso2 c))) l
           | None => l
           end in
  match preferred with
  | Some p =>
      flat_map (membersAt p l) (positionsOf p)
      ++ filter (fun c => negb (includes p (iso2 c))) l
  | None => l
  end.

(** A list prop that is passed and not empty. *)
Definition nonEmpty (o : option (list str)) : option (list str) :=
  match o with
  | Some (_ :: _) => o
  | _ => None
  end.

(** ** The widget *)

(** The state of one mounted component: the four [useState] cells, the
    [isInternalChange] ref, and the two things it hands to its environment:
    the calls of the [onChange] prop (oldest first) and the callbacks passed
    to [setTimeout(..., 0)] that have not run yet (oldest first; a callback is
    the pair of [rawDigits] and [country] its closure captured).
    [internalNationalRef.current] is assigned [internalNational] on every
    render, so between two events it is the [internalNational] cell. *)
Record Widget := {
  isOpen : bool;
  internalNational : str;
  selectedCountry : Country;
  searchQuery : str;
  isInternalChange : bool;
  onChangeCalls : list (str * str);
  timers : list (str * Country)
}.

(** A handler runs on the widget and completes normally with a value or
    throws. *)
Inductive Completion (A : Type) :=
| Normal (a : A)
| Thrown.

Arguments Thrown {A}.

Definition Handler (A : Type) : Type := Widget -> Completion A * Widget.

Definition ret {A : Type} (a : A) : Handler A := fun w => (Normal a, w).

Definition bind {A B : Type} (m : Handler A) (k : A -> Handler B) : Handler B :=
  fun w =>
    match m w with
    | (Normal a, w') => k a w'
    | (Thrown, w') => (Thrown, w')
    end.

(** [try { body } catch (e) { handler }] *)
Definition tryCatch {A : Type} (body handler : Handler A) : Handler A :=
  fun w =>
    match body w with
    | (Normal a, w') => (Normal a, w')
    | (Thrown, w') => handler w'
    end.

Declare Scope handler_scope.
Delimit Scope handler_scope with handler.
Notation "x <- m ;; k" := (bind m (fun x => k))
  (at level 61, m at next level, right associativity) : handler_scope.
Notation "m ;; k" := (bind m (fun _ => k))
  (at level 61, right associativity) : handler_scope.
Local Open Scope handler_scope.

Definition read {A : Type} (f : Widget -> A) : Handler A :=
  fun w => (Normal (f w), w).

Definition setIsOpen (b : bool) : Handler unit :=
  fun w => (Normal tt,
            {| isOpen := b; internalNational := internalNational w;
               selectedCountry := selectedCountry w; searchQuery := searchQuery w;
               isInternalChange := isInternalChange w;
               onChangeCalls := onChangeCalls w; timers := timers w |}).

Definition setInternalNational (s : str) : Handler unit :=
  fun w => (Normal tt,
            {| isOpen := isOpen w; internalNational := s;
               selectedCountry := selectedCountry w; searchQuery := searchQuery w;
               isInternalChange := isInternalChange w;
               onChangeCalls := onChangeCalls w; timers := timers w |}).

Definition setSelectedCountry (c : Country) : Handler unit :=
  fun w => (Normal tt,
            {| isOpen := isOpen w; internalNational := internalNational w;
               selectedCountry := c; searchQuery := searchQuery w;
               isInternalChange := isInternalChange w;
               onChangeCalls := onChangeCalls w; timers := timers w |}).

Definition setSearchQuery (q : str) : Handler unit :=
  fun w => (Normal tt,
            {| isOpen := isOpen w; internalNational := internalNational w;
               selectedCountry := selectedCountry w; searchQuery := q;
               isInternalChange := isInternalChange w;
               onChangeCalls := onChangeCalls w; timers := timers w |}).

(** [isInternalChange.current = b] *)
Definition setIsInternalChange (b : bool) : Handler unit :=
  fun w => (Normal tt,
            {| isOpen := isOpen w; internalNational := internalNational w;
               selectedCountry := selectedCountry w; searchQuery := searchQuery w;
               isInternalChange := b;
               onChangeCalls := onChangeCalls w; timers := timers w |}).

(** [onChange(value, iso2)] *)
Definition onChange (value code : str) : Handler unit :=
  fun w => (Normal tt,
            {| isOpen := isOpen w; internalNational := internalNational w;
               selectedCountry := selectedCountry w; searchQuery := searchQuery w;
               isInternalChange := isInternalChange w;
               onChangeCalls := onChangeCalls w ++ [(value, code)];
               timers := timers w |}).

(** [setTimeout(callback, 0)] *)
Definition setTimeout (rawDigits : str) (country : Country) : Handler unit :=
  fun w => (Normal tt,
            {| isOpen := isOpen w; internalNational := internalNational w;
               selectedCountry := selectedCountry w; searchQuery := searchQuery w;
               isInternalChange := isInternalChange w;
               onChangeCalls := onChangeCalls w;
               timers := timers w ++ [(rawDigits, country)] |}).

Definition popTimer : Handler (option (str * Country)) :=
  fun w =>
    match timers w with
    | [] => (Normal None, w)
    | t :: rest =>
        (Normal (Some t),
         {| isOpen := isOpen w; internalNational := internalNational w;
            selectedCountry := selectedCountry w; searchQuery := searchQuery w;
            isInternalChange := isInternalChange w;
            onChangeCalls := onChangeCalls w; timers := rest |})
    end.

(** ** The component logic *)

Section Component.
Variable lib : PhoneLib.
Variable countryList : list Country.
Variable props : Props.

(** A call of [parsePhoneNumber] inside a handler. *)
Definition callParse (text : str) (country : option str)
  : Handler (option PhoneNumber) :=
  fun w =>
    match parsePhoneNumber lib text country with
    | ParseThrows => (Thrown, w)
    | ParseReturns p => (Normal p, w)
    end.

(** [!parsed || !parsed.isValid()] *)
Definition missingOrInvalid (parsed : option PhoneNumber) : bool :=
  match parsed with
  | None => true
  | Some p => negb (pn_isValid p)
  end.

(** [parsed && parsed.country]: the country code when both are truthy. *)
Definition parsedCountry (parsed : option PhoneNumber) : option str :=
  match parsed with
  | Some p =>
      match pn_country p with
      | Some c => if truthy c then Some c else None
      | None => None
      end
  | None => None
  end.

(** A use of the formatter inside a handler. *)
Definition callLib {A : Type} (r : LibResult A) : Handler A :=
  fun w =>
    match r with
    | LibReturns a => (Normal a, w)
    | LibThrows => (Thrown, w)
    end.

(** [number?.format('NATIONAL') || value] *)
Definition formattedNational (number : option PhoneNumber) (value : str) : str :=
  match number with
  | Some n => if truthy (pn_national n) then pn_national n else value
  | None => value
  end.

(** The text the effect displays for a number with a country:
    [asYouType.getNumber()?.format('NATIONAL') || value] after
    [asYouType.input(value)] on [new AsYouType(country)], and [value], set by
    the [catch], when the formatter throws. *)
Definition nationalOr (country value : str) : str :=
  match asYouType_input lib country value with
  | LibReturns _ =>
      match asYouType_getNumber lib country value with
      | LibReturns number => formattedNational number value
      | LibThrows => value
      end
  | LibThrows => value
  end.

(** The effect on [[value, finalCountryList]] ("Sync prop value"), run with
    the current [value] prop. *)
Definition syncValue (value : str) : Handler unit :=
  guard <- read isInternalChange ;;
  if guard then setIsInternalChange false
  else if negb (truthy value) then setInternalNational []
  else
    tryCatch
      (selected <- read selectedCountry ;;
       parsed <- callParse value (Some (iso2 selected)) ;;
       parsed <- (if missingOrInvalid parsed
                  then tryCatch (callParse value None) (ret parsed)
                  else ret parsed) ;;
       match parsedCountry parsed with
       | Some country =>
           (if negb (str_eqb country (iso2 selected))
            then match find (fun c => str_eqb (iso2 c) country)
                            (finalCountryList countryList props) with
                 | Some newCountry => setSelectedCountry newCountry
                 | None => ret tt
                 end
            else ret tt) ;;
           callLib (asYouType_input lib country value) ;;
           number <- callLib (asYouType_getNumber lib country value) ;;
           setInternalNational (formattedNational number value)
       | None => setInternalNational value
       end)
      (setInternalNational value).

(** [number && number.isValid()] *)
Definition completeValid (number : option PhoneNumber) : option PhoneNumber :=
  match number with
  | Some n => if pn_isValid n then Some n else None
  | None => None
  end.

Definition emitChange (text : str) (country : Country) : Handler unit :=
  setIsInternalChange true ;;
  let cleanInput := stripNonDigitsPlus text in
  callLib (asYouType_input lib (iso2 country) cleanInput) ;;
  number <- callLib (asYouType_getNumber lib (iso2 country) cleanInput) ;;
  match completeValid number with
  | Some n => onChange (pn_e164 n) (iso2 country)
  | None =>
      let nationalDigits := stripNonDigits cleanInput in
      onChange ([plus_sign] ++ callingCode country ++ nationalDigits)
               (iso2 country)
  end.

Definition handleTextChange (text : str) : Handler unit :=
  if negb (strictCharCheck text) then ret tt
  else
    selected <- read selectedCountry ;;
    formatted <- callLib (asYouType_input lib (iso2 selected) text) ;;
    setInternalNational formatted ;;
    emitChange text selected.

(** The callback that [handleSelectCountry] passes to [setTimeout]. *)
Definition deferredEmit (rawDigits : str) (country : Country) : Handler unit :=
  callLib (asYouType_input lib (iso2 country) rawDigits) ;;
  number <- callLib (asYouType_getNumber lib (iso2 country) rawDigits) ;;
  match completeValid number with
  | Some n => onChange (pn_e164 n) (iso2 country)
  | None =>
      onChange ([plus_sign] ++ callingCode country ++ rawDigits) (iso2 country)
  end.

Definition handleSelectCountry (country : Country) : Handler unit :=
  current <- read internalNational ;;
  let rawDigits := stripNonDigits current in
  formatted <- callLib (asYouType_input lib (iso2 country) rawDigits) ;;
  setSelectedCountry country ;;
  setIsOpen false ;;
  setSearchQuery [] ;;
  setInternalNational formatted ;;
  setTimeout rawDigits country.

(** One turn of the scheduler: the oldest pending timer callback runs; it
    is off the queue whether it returns or throws. *)
Definition runTimer : Handler unit :=
  t <- popTimer ;;
  match t with
  | Some (rawDigits, country) => deferredEmit rawDigits country
  | None => ret tt
  end.

Definition toggleDropdown : Handler unit :=
  if disabled props then ret tt
  else
    prev <- read isOpen ;;
    setIsOpen (negb prev).

Definition closeDropdown : Handler unit := setIsOpen false.

(** The keyboard-hide listener, registered when [pickerType] is
    ['dropdown'] (the default). *)
Definition keyboardHide : Handler unit :=
  match pickerType props with
  | Some modal => ret tt
  | _ => setIsOpen false
  end.

(** The ref methods. *)
Definition setCountry (code : str) : Handler unit :=
  match find (fun c => str_eqb (iso2 c) code)
             (finalCountryList countryList props) with
  | Some country => handleSelectCountry country
  | None => ret tt
  end.


Definition isValid : Handler bool :=
  selected <- read selectedCountry ;;
  current <- read internalNational ;;
  let fullNumber := [plus_sign] ++ callingCode selected ++ current in
  tryCatch
    (parsed <- callParse fullNumber (Some (iso2 selected)) ;;
     ret (match parsed with
          | Some p => pn_isValid p
          | None => false
          end))
    (ret false).

(** The state after the first render, before the first run of the effect;
    [None] when the initial country is [undefined]. *)
Definition mount : option Widget :=
  match initialSelectedCountry countryList props with
  | Some c =>
      Some {| isOpen := false; internalNational := [];
              selectedCountry := c; searchQuery := [];
              isInternalChange := false;
              onChangeCalls := []; timers := [] |}
  | None => None
  end.

(** The events the component reacts to. *)
Inductive Event :=
| TextChanged (text : str)
| CountryTapped (country : Country)
| SetCountryCalled (code : str)
| ValueUpdated (value : str)
| TimerFired
| FlagPressed
| OverlayPressed
| KeyboardHidden
| SearchTyped (query : str).

Definition dispatch (e : Event) : Handler unit :=
  match e with
  | TextChanged text => handleTextChange text
  | CountryTapped country => handleSelectCountry country
  | SetCountryCalled code => setCountry code
  | ValueUpdated value => syncValue value
  | TimerFired => runTimer
  | FlagPressed => toggleDropdown
  | OverlayPressed => closeDropdown
  | KeyboardHidden => keyboardHide
  | SearchTyped query => setSearchQuery query
  end.

(** The widget after a handler has run. *)
Definition after {A : Type} (h : Handler A) (w : Widget) : Widget := snd (h w).

Definition completion {A : Type} (h : Handler A) (w : Widget) : Completion A :=
  fst (h w).

End Component.

(** ** Sample data for the examples *)

Definition US : Country :=
  {| iso2 := lit "US"; callingCode := lit "1"; name := lit "United States"; flagRef := 0 |}.
Definition TR : Country :=
  {| iso2 := lit "TR"; callingCode := lit "90"; name := lit "Turkey"; flagRef := 1 |}.
Definition DE : Country :=
  {| iso2 := lit "DE"; callingCode := lit "49"; name := lit "Germany"; flagRef := 2 |}.
Definition CA : Country :=
  {| iso2 := lit "CA"; callingCode := lit "1"; name := lit "Canada"; flagRef := 3 |}.

Definition sampleDirectory : list Country := [CA; DE; TR; US].

Definition noProps : Props :=
  {| defaultCountry := None; disabled := false; preferredCountries := None;
     allowedCountries := None; excludedCountries := None; pickerType := None |}.

Definition withDefault (code : str) (p : Props) : Props :=
  {| defaultCountry := Some code; disabled := disabled p;
     preferredCountries := preferredCountries p;
     allowedCountries := allowedCountries p;
     excludedCountries := excludedCountries p; pickerType := pickerType p |}.

Definition withLists (allowed excluded preferred : option (list str)) : Props :=
  {| defaultCountry := None; disabled := false; preferredCountries := preferred;
     allowedCountries := allowed; excludedCountries := excluded;
     pickerType := None |}.

(** The input filter as the specification words it: digits, space, hyphen
    and parentheses. *)
Definition spec_isInputChar (c : N) : bool :=
  isDigit c || N.eqb c space || N.eqb c hyphen || N.eqb c lparen || N.eqb c rparen.

(** An ASCII letter. *)
Definition isLetter (c : N) : bool :=
  ((65 <=? c)%N && (c <=? 90)%N) || ((97 <=? c)%N && (c <=? 122)%N).

(** [startsWith s prefix] *)
Fixpoint startsWith (s prefix : str) : bool :=
  match prefix, s with
  | [], _ => true
  | p :: prefix', c :: s' => N.eqb c p && startsWith s' prefix'
  | _ :: _, [] => false
  end.

(** A stand-in for the library in the examples.  It formats a text as it is
    typed without changing it.  A national number is complete and valid when
    it has ten digits.  A text that starts with a plus sign parses on its own:
    calling code 1 is the US, 49 is Germany, the rest of the digits is the
    national number; any other text parses only with a default country. *)
Definition toyNumber (country : option str) (code national : str) : PhoneNumber :=
  {| pn_country := country;
     pn_isValid := Nat.eqb (List.length national) 10;
     pn_e164 := [plus_sign] ++ code ++ national;
     pn_national := national |}.

Definition toyCallingCode (country : str) : str :=
  if str_eqb country (lit "US") then lit "1"
  else if str_eqb country (lit "CA") then lit "1"
  else if str_eqb country (lit "DE") then lit "49"
  else if str_eqb country (lit "TR") then lit "90"
  else [].

Definition toyInternational (text : str) : option PhoneNumber :=
  let digits := stripNonDigits text in
  if startsWith digits (lit "1")
  then Some (toyNumber (Some (lit "US")) (lit "1") (skipn 1 digits))
  else if startsWith digits (lit "49")
  then Some (toyNumber (Some (lit "DE")) (lit "49") (skipn 2 digits))
  else None.

Definition toyParse (text : str) (country : option str) : option PhoneNumber :=
  if startsWith text [plus_sign] then toyInternational text
  else
    match country, stripNonDigits text with
    | Some c, _ :: _ =>
        Some (toyNumber (Some c) (toyCallingCode c) (stripNonDigits text))
    | _, _ => None
    end.

Definition toyLib : PhoneLib :=
  {| parsePhoneNumber := fun text country => ParseReturns (toyParse text country);
     asYouType_input := fun _ text => LibReturns text;
     asYouType_getNumber :=
       fun country text => LibReturns (toyParse text (Some country)) |}.

(** The same library with a [parsePhoneNumber] that throws where [toyLib]
    returns [undefined], and whenever a default country is given for a text
    that carries another calling code. *)
Definition strictParse (text : str) (country : option str) : ParseResult :=
  match toyParse text country, country with
  | Some p, Some c =>
      match pn_country p with
      | Some pc => if str_eqb pc c then ParseReturns (Some p) else ParseThrows
      | None => ParseThrows
      end
  | Some p, None => ParseReturns (Some p)
  | None, _ => ParseThrows
  end.

Definition strictLib : PhoneLib :=
  {| parsePhoneNumber := strictParse;
     asYouType_input := asYouType_input toyLib;
     asYouType_getNumber := asYouType_getNumber toyLib |}.

Definition WS : Country :=
  {| iso2 := lit "WS"; callingCode := lit "685"; name := lit "Samoa"; flagRef := 4 |}.

(** [toyLib] with a formatter that throws for Samoa on a text whose first
    digit is 0. *)
Definition samoaThrows (country text : str) : bool :=
  str_eqb country (lit "WS") && startsWith (stripNonDigits text) (lit "0").

Definition samoaLib : PhoneLib :=
  {| parsePhoneNumber := parsePhoneNumber toyLib;
     asYouType_input :=
       fun country text =>
         if samoaThrows country text then LibThrows
         else asYouType_input toyLib country text;
     asYouType_getNumber :=
       fun country text =>
         if samoaThrows country text then LibThrows
         else asYouType_getNumber toyLib country text |}.

(** A widget showing [national] under [country], with the picker closed. *)
Definition showing (country : Country) (national : str) : Widget :=
  {| isOpen := false; internalNational := national;
     selectedCountry := country; searchQuery := [];
     isInternalChange := false; onChangeCalls := []; timers := [] |}.

(** A widget with the picker open and [query] typed in the search field. *)
Definition searching (country : Country) (query : str) : Widget :=
  {| isOpen := true; internalNational := [];
     selectedCountry := country; searchQuery := query;
     isInternalChange := false; onChangeCalls := []; timers := [] |}.

(** ** The search field of the picker *)

(** [s.includes(sub)] on strings: [sub] occurs somewhere in [s]. *)
Fixpoint strIncludes (s sub : str) : bool :=
  startsWith s sub
  || match s with
     | [] => false
     | _ :: rest => strIncludes rest sub
     end.

Section Search.
(** [String.prototype.toLowerCase], a built-in of the language. *)
Variable toLowerCase : str -> str.
Variable countryList : list Country.
Variable props : Props.

(** [filteredCountries] (the [useMemo] over [searchQuery] and
    [finalCountryList]): the list the picker renders. *)
Definition filteredCountries (w : Widget) : list Country :=
  if negb (truthy (searchQuery w)) then finalCountryList countryList props
  else
    let lower := toLowerCase (searchQuery w) in
    filter (fun c =>
              strIncludes (toLowerCase (name c)) lower
              || strIncludes (callingCode c) lower
              || strIncludes (toLowerCase (iso2 c)) lower)
           (finalCountryList countryList props).

End Search.

(** Lower case on the ASCII letters, for the examples. *)
Definition asciiLower (s : str) : str :=
  map (fun c => if ((65 <=? c)%N && (c <=? 90)%N)%bool then (c + 32)%N else c) s.

(** ** Runs of events *)

(** The widget after a sequence of events, each handled to its end before
    the next. *)
Fixpoint run (lib : PhoneLib) (countryList : list Country) (props : Props)
    (events : list Event) (w : Widget) : Widget :=
  match events with
  | [] => w
  | e :: rest =>
      run lib countryList props rest (after (dispatch lib countryList props e) w)
  end.

(** The value that [emitChange] and the timer callback of
    [handleSelectCountry] hand to [onChange] when the formatter, fed
    [digits], has returned [number]: the E.164 form of a valid number, else
    plus sign, calling code and the digits. *)
Definition canonicalValue (number : option PhoneNumber) (country : Country)
    (digits : str) : str :=
  match completeValid number with
  | Some n => pn_e164 n
  | None => [plus_sign] ++ callingCode country ++ digits
  end.

(** The calls of [onChange] that an emission for [digits] under [country]
    makes: one when the formatter returns, none when it throws. *)
Definition emission (lib : PhoneLib) (country : Country) (digits : str)
  : list (str * str) :=
  match asYouType_input lib (iso2 country) digits with
  | LibReturns _ =>
      match asYouType_getNumber lib (iso2 country) digits with
      | LibReturns number =>
          [(canonicalValue number country digits, iso2 country)]
      | LibThrows => []
      end
  | LibThrows => []
  end.

(** The props without [preferredCountries]. *)
Definition withoutPreferred (p : Props) : Props :=
  {| defaultCountry := defaultCountry p; disabled := disabled p;
     preferredCountries := None; allowedCountries := allowedCountries p;
     excludedCountries := excludedCountries p; pickerType := pickerType p |}.

(** The picker offers the entries of the filtered list only: the events of
    a session carry no other country. *)
Definition offered (countryList : list Country) (props : Props) (e : Event) : Prop :=
  match e with
  | CountryTapped c => In c (finalCountryList countryList props)
  | _ => True
  end.

(** * Facts *)

(** ** Strings and arrays *)

Lemma str_eqb_eq (a b : str) : str_eqb a b = true <-> a = b.
Proof.
  revert b; induction a as [|x a IH]; intros [|y b]; simpl;
    try (split; congruence).
  rewrite andb_true_iff, N.eqb_eq, IH. split.
  - intros [-> ->]; reflexivity.
  - intros E; injection E; auto.
Qed.

Lemma str_eqb_refl (a : str) : str_eqb a a = true.
Proof. apply str_eqb_eq; reflexivity. Qed.

Lemma str_eqb_sym (a b : str) : str_eqb a b = str_eqb b a.
Proof.
  destruct (str_eqb a b) eqn:E1, (str_eqb b a) eqn:E2; try reflexivity.
  - apply str_eqb_eq in E1; subst. rewrite str_eqb_refl in E2; discriminate.
  - apply str_eqb_eq in E2; subst. rewrite str_eqb_refl in E1; discriminate.
Qed.

Lemma includes_In (arr : list str) (x : str) :
  includes arr x = true <-> In x arr.
Proof.
  unfold includes. rewrite existsb_exists. split.
  - intros [y [Hy E]]. apply str_eqb_eq in E; subst; exact Hy.
  - intros H; exists x; split; [exact H | apply str_eqb_refl].
Qed.

Lemma indexOf_from_found (arr : list str) (x : str) (i : Z) :
  includes arr x = true ->
  (i <= indexOf_from arr x i < i + Z.of_nat (List.length arr))%Z.
Proof.
  revert i; induction arr as [|y arr IH]; intros i H; simpl in *.
  - discriminate.
  - rewrite str_eqb_sym in H. destruct (str_eqb y x); simpl in H.
    + lia.
    + specialize (IH (i + 1)%Z H). lia.
Qed.

Lemma indexOf_from_missing (arr : list str) (x : str) (i : Z) :
  includes arr x = false -> indexOf_from arr x i = (-1)%Z.
Proof.
  revert i; induction arr as [|y arr IH]; intros i H; simpl in *.
  - reflexivity.
  - rewrite str_eqb_sym in H. destruct (str_eqb y x); simpl in H.
    + discriminate.
    + apply IH, H.
Qed.

Lemma indexOf_found (arr : list str) (x : str) :
  includes arr x = true ->
  (0 <= indexOf arr x < Z.of_nat (List.length arr))%Z.
Proof. intros H. apply (indexOf_from_found arr x 0 H). Qed.

Lemma indexOf_nonneg_includes (arr : list str) (x : str) :
  (0 <= indexOf arr x)%Z -> includes arr x = true.
Proof.
  intros H. destruct (includes arr x) eqn:E; [reflexivity|].
  unfold indexOf in H. rewrite (indexOf_from_missing arr x 0 E) in H. lia.
Qed.

(** ** The stable sort by a numeric key *)

Section SortByKey.
Variable A : Type.
Variable key : A -> Z.

Let cmp := fun a b : A => (key a - key b)%Z.
Let grouped := grouped key.

Lemma insert_front (a : A) (l : list A) :
  (forall b, In b l -> (key a <= key b)%Z) -> insert cmp a l = a :: l.
Proof.
  destruct l as [|b r]; intros H; simpl; [reflexivity|].
  assert (Hb : (key a <= key b)%Z) by (apply H; left; reflexivity).
  unfold cmp. destruct (Z.leb_spec (key a - key b) 0); [reflexivity | lia].
Qed.

Lemma insert_past (a : A) (l1 l2 : list A) :
  (forall b, In b l1 -> (key b < key a)%Z) ->
  insert cmp a (l1 ++ l2) = l1 ++ insert cmp a l2.
Proof.
  induction l1 as [|b l1 IH]; intros H; simpl; [reflexivity|].
  assert (Hb : (key b < key a)%Z) by (apply H; left; reflexivity).
  unfold cmp at 1. destruct (Z.leb_spec (key a - key b) 0); [lia|].
  f_equal. apply IH. intros c Hc; apply H; right; exact Hc.
Qed.

Lemma grouped_In (s n : nat) (l : list A) (b : A) :
  In b (grouped s n l) ->
  (Z.of_nat s <= key b < Z.of_nat s + Z.of_nat n)%Z.
Proof.
  unfold grouped, JS.grouped. rewrite in_flat_map. intros [i [Hi Hb]].
  apply in_seq in Hi. apply filter_In in Hb. destruct Hb as [_ Hb].
  apply Z.eqb_eq in Hb. lia.
Qed.

Lemma grouped_nil (s n : nat) : grouped s n [] = [].
Proof.
  unfold grouped, JS.grouped. revert s; induction n as [|n IH]; intros s; simpl;
    [reflexivity | apply IH].
Qed.

Lemma grouped_cons_outside (s n : nat) (a : A) (l : list A) :
  ~ (Z.of_nat s <= key a < Z.of_nat s + Z.of_nat n)%Z ->
  grouped s n (a :: l) = grouped s n l.
Proof.
  unfold grouped, JS.grouped. intros H.
  revert s H; induction n as [|n IH]; intros s H; simpl; [reflexivity|].
  destruct (Z.eqb_spec (key a) (Z.of_nat s)); [lia|].
  f_equal. apply IH. lia.
Qed.

Lemma insert_grouped (n s : nat) (a : A) (l : list A) :
  (Z.of_nat s <= key a < Z.of_nat s + Z.of_nat n)%Z ->
  insert cmp a (grouped s n l) = grouped s n (a :: l).
Proof.
  revert s; induction n as [|n IH]; intros s H; [lia|].
  change (grouped s (S n) l)
    with (filter (fun c => (key c =? Z.of_nat s)%Z) l ++ grouped (S s) n l).
  change (grouped s (S n) (a :: l))
    with (filter (fun c => (key c =? Z.of_nat s)%Z) (a :: l)
          ++ grouped (S s) n (a :: l)).
  simpl filter. destruct (Z.eqb_spec (key a) (Z.of_nat s)) as [E|E].
  - rewrite grouped_cons_outside by lia. simpl. apply insert_front.
    intros b Hb. apply in_app_or in Hb. destruct Hb as [Hb|Hb].
    + apply filter_In in Hb. destruct Hb as [_ Hb]. apply Z.eqb_eq in Hb. lia.
    + apply grouped_In in Hb. lia.
  - rewrite insert_past.
    + f_equal. apply IH. lia.
    + intros b Hb. apply filter_In in Hb. destruct Hb as [_ Hb].
      apply Z.eqb_eq in Hb. lia.
Qed.

Lemma sort_grouped (n : nat) (l : list A) :
  (forall b, In b l -> (0 <= key b < Z.of_nat n)%Z) ->
  sort cmp l = grouped 0 n l.
Proof.
  induction l as [|a l IH]; intros H; simpl.
  - symmetry; apply grouped_nil.
  - rewrite IH by (intros b Hb; apply H; right; exact Hb).
    apply insert_grouped. specialize (H a (or_introl eq_refl)). lia.
Qed.

Lemma insert_In (a b : A) (l : list A) :
  In b (insert cmp a l) <-> b = a \/ In b l.
Proof.
  induction l as [|c l IH]; simpl.
  - intuition.
  - destruct (cmp a c <=? 0)%Z; simpl; [intuition|]. rewrite IH. intuition.
Qed.

End SortByKey.

(** ** The country list *)

Lemma filter_sort_permutation {A : Type} (cmp : A -> A -> Z) (l : list A) :
  Permutation (sort cmp l) l.
Proof.
  induction l as [|a l IH]; simpl; [constructor|].
  transitivity (a :: sort cmp l); [|constructor; exact IH].
  generalize (sort cmp l) as r. clear.
  induction r as [|b r IH]; simpl; [reflexivity|].
  destruct (cmp a b <=? 0)%Z; [reflexivity|].
  transitivity (b :: a :: r); [constructor; exact IH | apply perm_swap].
Qed.

Lemma filter_split_permutation {A : Type} (f : A -> bool) (l : list A) :
  Permutation (filter f l ++ filter (fun c => negb (f c)) l) l.
Proof.
  induction l as [|a l IH]; simpl; [constructor|].
  destruct (f a); simpl.
  - constructor; exact IH.
  - symmetry. apply Permutation_cons_app. symmetry; exact IH.
Qed.

Lemma NoDup_map_filter {A B : Type} (g : A -> B) (f : A -> bool) (l : list A) :
  NoDup (map g l) -> NoDup (map g (filter f l)).
Proof.
  induction l as [|a l IH]; simpl; intros H; [constructor|].
  inversion H as [|x r Hx Hr]; subst.
  destruct (f a); simpl; [|apply IH, Hr].
  constructor; [|apply IH, Hr].
  intros Hin. apply Hx. apply in_map_iff in Hin.
  destruct Hin as [c [Ec Hc]]. apply filter_In in Hc.
  apply in_map_iff. exists c. tauto.
Qed.

Lemma grouped_filter_includes (codes : list str) (l : list Country) (s n : nat) :
  grouped (fun c => indexOf codes (iso2 c)) s n
          (filter (fun c => includes codes (iso2 c)) l)
  = grouped (fun c => indexOf codes (iso2 c)) s n l.
Proof.
  unfold grouped. apply flat_map_ext. intros i.
  induction l as [|c l IH]; simpl; [reflexivity|].
  destruct (includes codes (iso2 c)) eqn:E; simpl; rewrite IH; [reflexivity|].
  destruct (Z.eqb_spec (indexOf codes (iso2 c)) (Z.of_nat i)) as [Ei|Ei];
    [|reflexivity].
  assert (H : includes codes (iso2 c) = true)
    by (apply indexOf_nonneg_includes; lia).
  congruence.
Qed.

Lemma sort_preferred (codes : list str) (l : list Country) :
  sort (fun a b => (indexOf codes (iso2 a) - indexOf codes (iso2 b))%Z)
       (filter (fun c => includes codes (iso2 c)) l)
  = flat_map (membersAt codes l) (positionsOf codes).
Proof.
  rewrite (sort_grouped (fun c => indexOf codes (iso2 c)) (List.length codes)).
  - apply grouped_filter_includes.
  - intros b Hb. apply filter_In in Hb. apply indexOf_found, Hb.
Qed.

Lemma finalCountryList_refines (directory : list Country) (p : Props) :
  finalCountryList directory p
  = spec_filteredCountryList directory (nonEmpty (allowedCountries p))
      (excludedCountries p) (preferredCountries p).
Proof.
  unfold finalCountryList, spec_filteredCountryList.
  destruct (allowedCountries p) as [[|a allowed]|];
    destruct (excludedCountries p) as [[|e excluded]|];
    destruct (preferredCountries p) as [[|f preferred]|];
    cbn [nonEmpty includes existsb negb positionsOf List.length seq flat_map app];
    rewrite ?sort_preferred;
    repeat match goal with
           | |- context [filter (fun _ => true) ?l] =>
               replace (filter (fun _ => true) l) with l
                 by (clear; induction l; simpl; congruence)
           end;
    reflexivity.
Qed.

Lemma finalCountryList_NoDup (directory : list Country) (p : Props) :
  NoDup (map iso2 directory) ->
  NoDup (map iso2 (finalCountryList directory p)).
Proof.
  intros H. unfold finalCountryList.
  set (l1 := match allowedCountries p with
             | Some ((_ :: _) as allowed) =>
                 filter (fun c => includes allowed (iso2 c)) directory
             | _ => directory
             end).
  assert (H1 : NoDup (map iso2 l1)).
  { subst l1. destruct (allowedCountries p) as [[|a r]|]; auto.
    apply NoDup_map_filter, H. }
  set (l2 := match excludedCountries p with
             | Some ((_ :: _) as excluded) =>
                 filter (fun c => negb (includes excluded (iso2 c))) l1
             | _ => l1
             end).
  assert (H2 : NoDup (map iso2 l2)).
  { subst l2. destruct (excludedCountries p) as [[|a r]|]; auto.
    apply NoDup_map_filter, H1. }
  destruct (preferredCountries p) as [[|a r]|]; auto.
  eapply Permutation_NoDup; [|exact H2].
  symmetry. apply Permutation_map.
  etransitivity; [|apply (filter_split_permutation
                            (fun c => includes (a :: r) (iso2 c)) l2)].
  apply Permutation_app_tail. apply filter_sort_permutation.
Qed.

Example finalCountryList_preferred_DE_US :
  finalCountryList sampleDirectory
    (withLists None None (Some [lit "DE"; lit "US"]))
  = [DE; US; CA; TR].
Proof. reflexivity. Qed.

Example finalCountryList_allowed_US_CA :
  finalCountryList sampleDirectory
    (withLists (Some [lit "US"; lit "CA"]) None None)
  = [CA; US].
Proof. reflexivity. Qed.

Example finalCountryList_all_three :
  finalCountryList sampleDirectory
    (withLists (Some [lit "US"; lit "CA"; lit "TR"]) (Some [lit "CA"])
               (Some [lit "US"; lit "XX"; lit "US"; lit "TR"]))
  = [US; TR].
Proof. reflexivity. Qed.

(** C6 (as amended): the filtered list is the directory restricted to
    [allowedCountries] when that prop is passed and not empty, without the
    [excludedCountries] when that prop is passed, with the members of
    [preferredCountries] first, by their position in the preference list, and
    the other entries after them in directory order.  When the directory has
    no two entries with one iso2 code, neither has the filtered list; and
    with none of the three props passed the filtered list is the directory. *)
Theorem finalCountryList_spec (directory : list Country) (p : Props)
    (Hkey : NoDup (map iso2 directory)) :
  finalCountryList directory p
  = spec_filteredCountryList directory (nonEmpty (allowedCountries p))
      (excludedCountries p) (preferredCountries p)
  /\ NoDup (map iso2 (finalCountryList directory p))
  /\ finalCountryList directory
       {| defaultCountry := defaultCountry p; disabled := disabled p;
          preferredCountries := None; allowedCountries := None;
          excludedCountries := None; pickerType := pickerType p |}
     = directory.
Proof.
  split; [apply finalCountryList_refines|].
  split; [apply finalCountryList_NoDup, Hkey | reflexivity].
Qed.

Lemma sampleDirectory_NoDup : NoDup (map iso2 sampleDirectory).
Proof.
  repeat constructor; simpl; unfold lit; simpl; intuition discriminate.
Qed.

Lemma finalCountryList_spec_witness :
  let p := withLists (Some [lit "US"; lit "CA"; lit "DE"]) (Some [lit "CA"])
             (Some [lit "US"; lit "DE"]) in
  NoDup (map iso2 sampleDirectory)
  /\ finalCountryList sampleDirectory p = [US; DE]
  /\ NoDup (map iso2 (finalCountryList sampleDirectory p)).
Proof.
  intros p. split; [exact sampleDirectory_NoDup|].
  destruct (finalCountryList_spec sampleDirectory p sampleDirectory_NoDup)
    as [E [N _]].
  split; [rewrite E; reflexivity | exact N].
Defined.

(** C6, as stated, fails when [allowedCountries] is passed as an empty
    array: the component keeps the whole directory, where filtering to the
    members of the empty list leaves nothing. *)
Lemma finalCountryList_empty_allowed_keeps_all :
  finalCountryList sampleDirectory (withLists (Some []) None None)
  = [CA; DE; TR; US]
  /\ spec_filteredCountryList sampleDirectory (Some []) None None = []
  /\ finalCountryList sampleDirectory (withLists (Some []) None None)
     <> spec_filteredCountryList sampleDirectory (Some []) None None.
Proof.
  split; [reflexivity|]. split; [reflexivity|]. discriminate.
Qed.

(** ** The initial country *)

Lemma find_iso2_some (code : str) (l : list Country) (c : Country) :
  find (fun c => str_eqb (iso2 c) code) l = Some c ->
  In c l /\ iso2 c = code.
Proof.
  intros H. apply find_some in H. destruct H as [Hin E].
  apply str_eqb_eq in E. tauto.
Qed.

Lemma find_iso2_none (code : str) (l : list Country) :
  find (fun c => str_eqb (iso2 c) code) l = None ->
  forall c, In c l -> iso2 c <> code.
Proof.
  intros H c Hin E. apply (find_none _ _ H) in Hin.
  apply str_eqb_eq in E. congruence.
Qed.

(** C10: when the directory is not empty the initial selected country is
    defined.  With [wanted] the [defaultCountry] prop, or "TR" when the prop
    is not passed: it is an entry of the filtered list with the iso2 code
    [wanted] when the filtered list has one; otherwise it is the first entry
    of the filtered list; and when the filtered list is empty it is the first
    entry of the directory. *)
Theorem initialSelectedCountry_defined (directory : list Country) (p : Props)
    (Hne : directory <> []) :
  let wanted := match defaultCountry p with
                | Some code => code
                | None => lit "TR"
                end in
  exists c,
    initialSelectedCountry directory p = Some c
    /\ ((exists m, In m (finalCountryList directory p) /\ iso2 m = wanted) ->
        In c (finalCountryList directory p) /\ iso2 c = wanted)
    /\ ((forall m, In m (finalCountryList directory p) -> iso2 m <> wanted) ->
        forall f r, finalCountryList directory p = f :: r -> c = f)
    /\ (finalCountryList directory p = [] ->
        exists r, directory = c :: r).
Proof.
  intros wanted. unfold initialSelectedCountry.
  change (defaultCountryOrTR p) with wanted.
  destruct (find (fun c => str_eqb (iso2 c) wanted)
                 (finalCountryList directory p)) as [m|] eqn:F.
  - exists m. simpl. apply find_iso2_some in F. destruct F as [Hin E].
    split; [reflexivity|]. split; [tauto|]. split.
    + intros Hnone. exfalso. apply (Hnone m Hin E).
    + intros Hempty. rewrite Hempty in Hin. destruct Hin.
  - pose proof (@find_iso2_none _ _ F) as Hnone.
    destruct (finalCountryList directory p) as [|f r] eqn:L; simpl.
    + destruct directory as [|d rest]; [congruence|]. exists d. simpl.
      split; [reflexivity|]. split.
      * intros [m [[] _]].
      * split; [intros _ f r E; discriminate | intros _; exists rest; reflexivity].
    + exists f. split; [reflexivity|]. split.
      * intros [m [Hin E]]. exfalso. apply (Hnone m Hin E).
      * split; [intros _ f' r' E; congruence | discriminate].
Qed.

Lemma initialSelectedCountry_defined_witness :
  sampleDirectory <> []
  /\ (exists c,
        initialSelectedCountry sampleDirectory (withDefault (lit "DE") noProps)
        = Some c
        /\ In c (finalCountryList sampleDirectory (withDefault (lit "DE") noProps))
        /\ iso2 c = lit "DE")
  /\ (exists c,
        initialSelectedCountry sampleDirectory
          (withDefault (lit "DE") (withLists None (Some [lit "DE"]) None))
        = Some c
        /\ c = CA).
Proof.
  assert (Hne : sampleDirectory <> []) by discriminate.
  split; [exact Hne|]. split.
  - destruct (@initialSelectedCountry_defined sampleDirectory
                (withDefault (lit "DE") noProps) Hne)
      as [c [E [Hmatch _]]].
    exists c. split; [exact E|]. apply Hmatch.
    exists DE. split; [vm_compute; tauto | reflexivity].
  - destruct (@initialSelectedCountry_defined sampleDirectory
                (withDefault (lit "DE") (withLists None (Some [lit "DE"]) None))
                Hne)
      as [c [E [_ [Hfirst _]]]].
    exists c. split; [exact E|].
    apply (Hfirst) with (r := [TR; US]); [|reflexivity].
    intros m Hin. vm_compute in Hin.
    destruct Hin as [<-|[<-|[<-|[]]]]; discriminate.
Defined.

Example initialSelectedCountry_by_default_prop :
  initialSelectedCountry sampleDirectory (withDefault (lit "DE") noProps) = Some DE
  /\ initialSelectedCountry sampleDirectory (withDefault (lit "US") noProps)
     = Some US
  /\ initialSelectedCountry sampleDirectory noProps = Some TR
  /\ initialSelectedCountry sampleDirectory (withDefault (lit "XX") noProps)
     = Some CA.
Proof. repeat split. Qed.

(** ** Emission *)

Lemma stripNonDigits_of_clean (text : str) :
  stripNonDigits (stripNonDigitsPlus text) = stripNonDigits text.
Proof.
  unfold stripNonDigits, stripNonDigitsPlus.
  induction text as [|c text IH]; simpl; [reflexivity|].
  destruct (isDigit c) eqn:D; simpl.
  - rewrite D, IH; reflexivity.
  - destruct (N.eqb c plus_sign); simpl; [rewrite D|]; exact IH.
Qed.

Lemma stripNonDigits_digits (text : str) :
  Forall (fun c => isDigit c = true) (stripNonDigits text).
Proof.
  apply Forall_forall. intros c H. apply filter_In in H. tauto.
Qed.

Lemma stripNonDigits_idempotent (text : str) :
  stripNonDigits (stripNonDigits text) = stripNonDigits text.
Proof.
  unfold stripNonDigits. induction text as [|c text IH]; simpl; [reflexivity|].
  destruct (isDigit c) eqn:D; simpl; [rewrite D, IH; reflexivity | exact IH].
Qed.

Lemma completeValid_some (number : option PhoneNumber) (n : PhoneNumber) :
  completeValid number = Some n <-> number = Some n /\ pn_isValid n = true.
Proof.
  unfold completeValid. destruct number as [m|].
  - destruct (pn_isValid m) eqn:V; split.
    + intros E; injection E as <-; tauto.
    + intros [E _]; exact E.
    + discriminate.
    + intros [E V']; injection E as <-; congruence.
  - split; [discriminate | intros [E _]; discriminate].
Qed.


(** What a call of [emitChange] does to the widget: the ref is set, then
    the formatter is used, and if it returns [onChange] is called once. *)
Lemma emitChange_run (lib : PhoneLib) (text : str) (country : Country)
    (w : Widget) :
  emitChange lib text country w
  = match asYouType_input lib (iso2 country) (stripNonDigitsPlus text),
          asYouType_getNumber lib (iso2 country) (stripNonDigitsPlus text) with
    | LibReturns _, LibReturns number =>
        (Normal tt,
         {| isOpen := isOpen w; internalNational := internalNational w;
            selectedCountry := selectedCountry w; searchQuery := searchQuery w;
            isInternalChange := true;
            onChangeCalls :=
              onChangeCalls w
              ++ [(canonicalValue number country (stripNonDigits text),
                   iso2 country)];
            timers := timers w |})
    | _, _ =>
        (Thrown,
         {| isOpen := isOpen w; internalNational := internalNational w;
            selectedCountry := selectedCountry w; searchQuery := searchQuery w;
            isInternalChange := true;
            onChangeCalls := onChangeCalls w; timers := timers w |})
    end.
Proof.
  unfold emitChange, bind, setIsInternalChange, callLib, onChange, canonicalValue.
  destruct (asYouType_input lib (iso2 country) (stripNonDigitsPlus text));
    [|reflexivity].
  destruct (asYouType_getNumber lib (iso2 country) (stripNonDigitsPlus text))
    as [number|]; [|reflexivity].
  rewrite stripNonDigits_of_clean.
  destruct (completeValid number); reflexivity.
Qed.






(** What the timer callback of a country selection does to the widget: it
    uses the formatter and, if that returns, calls [onChange] once; the ref
    is left as it is. *)
Lemma deferredEmit_run (lib : PhoneLib) (rawDigits : str) (country : Country)
    (w : Widget) :
  deferredEmit lib rawDigits country w
  = (match emission lib country rawDigits with
     | [] => Thrown
     | _ :: _ => Normal tt
     end,
     {| isOpen := isOpen w; internalNational := internalNational w;
        selectedCountry := selectedCountry w; searchQuery := searchQuery w;
        isInternalChange := isInternalChange w;
        onChangeCalls := onChangeCalls w ++ emission lib country rawDigits;
        timers := timers w |}).
Proof.
  unfold deferredEmit, emission, bind, callLib, onChange, canonicalValue.
  destruct (asYouType_input lib (iso2 country) rawDigits);
    [|rewrite app_nil_r; destruct w; reflexivity].
  destruct (asYouType_getNumber lib (iso2 country) rawDigits) as [number|];
    [|rewrite app_nil_r; destruct w; reflexivity].
  destruct (completeValid number); reflexivity.
Qed.

Lemma emission_length (lib : PhoneLib) (country : Country) (digits : str) :
  (List.length (emission lib country digits) <= 1)%nat
  /\ Forall (fun call => snd call = iso2 country) (emission lib country digits).
Proof.
  unfold emission.
  destruct (asYouType_input lib (iso2 country) digits);
    [|split; [simpl; lia | constructor]].
  destruct (asYouType_getNumber lib (iso2 country) digits);
    split; simpl; try lia; repeat constructor.
Qed.

(** ** Keystrokes *)

Lemma strictCharCheck_false (text : str) :
  (exists c, In c text /\ isInputChar c = false) ->
  strictCharCheck text = false.
Proof.
  intros [c [Hin Hc]]. unfold strictCharCheck.
  destruct (forallb isInputChar text) eqn:F; [|reflexivity].
  rewrite forallb_forall in F. specialize (F c Hin). congruence.
Qed.

Lemma letter_not_input_char (c : N) :
  isLetter c = true -> isInputChar c = false.
Proof.
  unfold isLetter, isInputChar, isDigit, isSpace, hyphen, lparen, rparen.
  intros H.
  assert (R : (65 <= c <= 122)%N).
  { destruct (N.leb_spec 65 c), (N.leb_spec c 90), (N.leb_spec 97 c),
      (N.leb_spec c 122); simpl in H; try discriminate; lia. }
  repeat match goal with
         | |- context [N.eqb c ?k] =>
             replace (N.eqb c k) with false
               by (symmetry; apply N.eqb_neq; lia)
         end.
  replace (c <=? 57)%N with false by (symmetry; apply N.leb_gt; lia).
  replace (c <=? 13)%N with false by (symmetry; apply N.leb_gt; lia).
  replace (8192 <=? c)%N with false by (symmetry; apply N.leb_gt; lia).
  rewrite !andb_false_r. reflexivity.
Qed.

(** C3 (as amended): a text with a character outside digits, white space
    (every character of the class [\s], the space among them), hyphen and
    parentheses, any letter in particular, is dropped: [handleTextChange]
    returns with the widget as it was, so [internalNational] is unchanged and
    [onChange] is not called. *)
Theorem handleTextChange_rejects (lib : PhoneLib) (text : str) (w : Widget)
    (Hbad : exists c, In c text /\ (isInputChar c = false \/ isLetter c = true)) :
  handleTextChange lib text w = (Normal tt, w).
Proof.
  unfold handleTextChange. rewrite strictCharCheck_false; [reflexivity|].
  destruct Hbad as [c [Hin [Hc|Hc]]]; exists c; split; auto.
  apply letter_not_input_char, Hc.
Qed.

Lemma handleTextChange_rejects_witness :
  handleTextChange toyLib (lit "202a") (showing US (lit "202"))
  = (Normal tt, showing US (lit "202")).
Proof.
  apply handleTextChange_rejects. exists 97%N. split.
  - simpl. tauto.
  - right. reflexivity.
Defined.

(** C3, as stated, fails for a tab: it is none of digit, space, hyphen and
    parenthesis, and a text with one is accepted, displayed and emitted. *)
Lemma handleTextChange_accepts_tab :
  let text := lit "1" ++ [9%N] ++ lit "2" in
  existsb (fun c => negb (spec_isInputChar c)) text = true
  /\ internalNational (after (handleTextChange toyLib text) (showing US []))
     = text
  /\ onChangeCalls (after (handleTextChange toyLib text) (showing US []))
     = [(lit "+112", lit "US")].
Proof. repeat split. Qed.

Lemma plus_sign_not_input_char :
  isInputChar plus_sign = false.
Proof. reflexivity. Qed.

Lemma accepted_text_has_no_plus (text : str) :
  strictCharCheck text = true ->
  stripNonDigitsPlus text = stripNonDigits text.
Proof.
  unfold strictCharCheck, stripNonDigitsPlus, stripNonDigits.
  induction text as [|c text IH]; simpl; [reflexivity|].
  rewrite andb_true_iff. intros [Hc Ht].
  destruct (isDigit c) eqn:D; simpl; [rewrite IH by exact Ht; reflexivity|].
  destruct (N.eqb_spec c plus_sign) as [->|_]; [|apply IH, Ht].
  rewrite plus_sign_not_input_char in Hc. discriminate.
Qed.

(** [emitChange] on an accepted text: the formatter is fed the digits. *)
Lemma emitChange_canonical (lib : PhoneLib) (text : str) (country : Country)
    (w : Widget) :
  strictCharCheck text = true ->
  emitChange lib text country w
  = (match emission lib country (stripNonDigits text) with
     | [] => Thrown
     | _ :: _ => Normal tt
     end,
     {| isOpen := isOpen w; internalNational := internalNational w;
        selectedCountry := selectedCountry w; searchQuery := searchQuery w;
        isInternalChange := true;
        onChangeCalls :=
          onChangeCalls w ++ emission lib country (stripNonDigits text);
        timers := timers w |}).
Proof.
  intros A. rewrite emitChange_run. unfold emission.
  rewrite (accepted_text_has_no_plus text A).
  destruct (asYouType_input lib (iso2 country) (stripNonDigits text));
    [|rewrite app_nil_r; reflexivity].
  destruct (asYouType_getNumber lib (iso2 country) (stripNonDigits text));
    [|rewrite app_nil_r; reflexivity].
  reflexivity.
Qed.

(** An accepted text goes to the formatter of the selected country.  If
    the formatter throws, nothing has changed; if it returns, its text is
    displayed and [emitChange] runs. *)
Lemma handleTextChange_run (lib : PhoneLib) (text : str) (w : Widget) :
  strictCharCheck text = true ->
  handleTextChange lib text w
  = match asYouType_input lib (iso2 (selectedCountry w)) text with
    | LibReturns formatted =>
        (match emission lib (selectedCountry w) (stripNonDigits text) with
         | [] => Thrown
         | _ :: _ => Normal tt
         end,
         {| isOpen := isOpen w; internalNational := formatted;
            selectedCountry := selectedCountry w; searchQuery := searchQuery w;
            isInternalChange := true;
            onChangeCalls :=
              onChangeCalls w
              ++ emission lib (selectedCountry w) (stripNonDigits text);
            timers := timers w |})
    | LibThrows => (Thrown, w)
    end.
Proof.
  intros A. unfold handleTextChange. rewrite A. cbn [negb].
  unfold bind at 1. unfold read. unfold bind at 1. unfold callLib at 1.
  destruct (asYouType_input lib (iso2 (selectedCountry w)) text) as [formatted|];
    [|reflexivity].
  unfold bind at 1. unfold setInternalNational.
  rewrite emitChange_canonical by exact A. reflexivity.
Qed.

(** ** Country selection *)

(** What a call of [handleSelectCountry] does to the widget: nothing when
    the formatter throws, all of it when the formatter returns. *)
Lemma handleSelectCountry_run (lib : PhoneLib) (country : Country) (w : Widget) :
  handleSelectCountry lib country w
  = match asYouType_input lib (iso2 country)
            (stripNonDigits (internalNational w)) with
    | LibReturns formatted =>
        (Normal tt,
         {| isOpen := false; internalNational := formatted;
            selectedCountry := country; searchQuery := [];
            isInternalChange := isInternalChange w;
            onChangeCalls := onChangeCalls w;
            timers := timers w ++ [(stripNonDigits (internalNational w), country)] |})
    | LibThrows => (Thrown, w)
    end.
Proof.
  unfold handleSelectCountry, bind, read, callLib.
  destruct (asYouType_input lib (iso2 country)
              (stripNonDigits (internalNational w))); reflexivity.
Qed.




(** With no other timer pending, the next scheduler turn after a country
    selection is the deferred emission. *)
Lemma runTimer_after_select (lib : PhoneLib) (country : Country) (w : Widget)
    (formatted : str) :
  timers w = [] ->
  asYouType_input lib (iso2 country) (stripNonDigits (internalNational w))
  = LibReturns formatted ->
  let w1 := after (handleSelectCountry lib country) w in
  after (runTimer lib) w1
  = {| isOpen := false; internalNational := formatted;
       selectedCountry := country; searchQuery := [];
       isInternalChange := isInternalChange w;
       onChangeCalls :=
         onChangeCalls w
         ++ emission lib country (stripNonDigits (internalNational w));
       timers := [] |}.
Proof.
  intros T Hf. unfold after. rewrite handleSelectCountry_run, Hf. cbn [snd].
  unfold runTimer, bind, popTimer. simpl. rewrite T. simpl.
  rewrite deferredEmit_run. reflexivity.
Qed.

Example select_TR_over_US_digits :
  let w1 := after (handleSelectCountry toyLib TR) (showing US (lit "(202) 555")) in
  internalNational w1 = lit "202555"
  /\ onChangeCalls w1 = []
  /\ onChangeCalls (after (runTimer toyLib) w1) = [(lit "+90202555", lit "TR")].
Proof. repeat split. Qed.

(** C7 (as amended): every country selection for which the formatter
    returns empties the search query and closes the picker, whatever the
    query was; closing the picker with [closeDropdown] closes it and leaves
    the search query as it is. *)
Theorem searchQuery_reset_on_selection_only (lib : PhoneLib) (country : Country)
    (w : Widget) :
  (forall formatted,
     asYouType_input lib (iso2 country) (stripNonDigits (internalNational w))
     = LibReturns formatted ->
     searchQuery (after (handleSelectCountry lib country) w) = []
     /\ isOpen (after (handleSelectCountry lib country) w) = false)
  /\ isOpen (after closeDropdown w) = false
  /\ searchQuery (after closeDropdown w) = searchQuery w.
Proof.
  split; [|split; reflexivity].
  intros formatted Hf. unfold after. rewrite handleSelectCountry_run, Hf.
  split; reflexivity.
Qed.

Lemma searchQuery_reset_on_selection_only_witness :
  searchQuery (after (handleSelectCountry toyLib TR) (searching US (lit "tur")))
  = []
  /\ isOpen (after (handleSelectCountry toyLib TR) (searching US (lit "tur")))
     = false.
Proof.
  apply (proj1 (searchQuery_reset_on_selection_only toyLib TR
                  (searching US (lit "tur"))) []).
  reflexivity.
Defined.

(** C7, as stated, fails on a close of the picker: the query typed in the
    search field is still there afterwards. *)
Lemma closeDropdown_keeps_searchQuery :
  isOpen (after closeDropdown (searching US (lit "tur"))) = false
  /\ searchQuery (after closeDropdown (searching US (lit "tur"))) = lit "tur"
  /\ searchQuery (after closeDropdown (searching US (lit "tur"))) <> [].
Proof. repeat split. discriminate. Qed.

(** The other ways to close the picker keep the query too. *)
Lemma closing_keeps_searchQuery (p : Props) (w : Widget) :
  searchQuery (after (toggleDropdown p) w) = searchQuery w
  /\ searchQuery (after (keyboardHide p) w) = searchQuery w.
Proof.
  unfold after, toggleDropdown, keyboardHide. split.
  - destruct (disabled p); reflexivity.
  - destruct (pickerType p) as [[|]|]; reflexivity.
Qed.

(** ** The ref methods *)

(** C8: [isValid] parses, with the selected country as default, the plus
    sign, the calling code of the selected country and the displayed text, and
    returns the verdict of the number it gets; when the parser returns no
    number or throws, it returns false.  It never throws and changes
    nothing. *)
Theorem isValid_verdict (lib : PhoneLib) (w : Widget) :
  let selected := selectedCountry w in
  let fullNumber := [plus_sign] ++ callingCode selected ++ internalNational w in
  let parsed := parsePhoneNumber lib fullNumber (Some (iso2 selected)) in
  (forall p, parsed = ParseReturns (Some p) ->
             isValid lib w = (Normal (pn_isValid p), w))
  /\ (parsed = ParseReturns None -> isValid lib w = (Normal false, w))
  /\ (parsed = ParseThrows -> isValid lib w = (Normal false, w))
  /\ exists b, isValid lib w = (Normal b, w).
Proof.
  intros selected fullNumber parsed.
  unfold isValid, bind, read, tryCatch, callParse, ret.
  fold selected. fold fullNumber. fold parsed.
  destruct parsed as [|[p|]].
  - repeat split; try discriminate. eexists; reflexivity.
  - split; [intros q E; injection E as <-; reflexivity|].
    repeat split; try discriminate. eexists; reflexivity.
  - repeat split; try discriminate. eexists; reflexivity.
Qed.

Lemma isValid_verdict_witness :
  isValid toyLib (showing US (lit "2025550123"))
  = (Normal true, showing US (lit "2025550123"))
  /\ isValid toyLib (showing US (lit "123"))
     = (Normal false, showing US (lit "123"))
  /\ isValid strictLib (showing TR (lit "+"))
     = (Normal false, showing TR (lit "+")).
Proof.
  split; [|split].
  - apply (proj1 (isValid_verdict toyLib (showing US (lit "2025550123")))
             (toyNumber (Some (lit "US")) (lit "1") (lit "2025550123"))).
    reflexivity.
  - apply (proj1 (isValid_verdict toyLib (showing US (lit "123")))
             (toyNumber (Some (lit "US")) (lit "1") (lit "123"))).
    reflexivity.
  - apply (proj1 (proj2 (proj2 (isValid_verdict strictLib
                                  (showing TR (lit "+")))))).
    reflexivity.
Defined.

Lemma setCountry_found (lib : PhoneLib) (directory : list Country) (p : Props)
    (code : str) (c : Country) (w : Widget) :
  find (fun c => str_eqb (iso2 c) code) (finalCountryList directory p) = Some c ->
  setCountry lib directory p code w = handleSelectCountry lib c w.
Proof. intros F. unfold setCountry. rewrite F. reflexivity. Qed.

(** C9: [setCountry] with a code that no entry of the filtered list has
    returns with the widget as it was: nothing changes, nothing is emitted,
    nothing is scheduled, nothing is thrown.  With the code of an entry of the
    filtered list it does what a tap on that entry does: the same step, timer
    callback included. *)
Theorem setCountry_lookup (lib : PhoneLib) (directory : list Country)
    (p : Props) (code : str) (w : Widget) :
  ((forall c, In c (finalCountryList directory p) -> iso2 c <> code) ->
   setCountry lib directory p code w = (Normal tt, w))
  /\ (forall c,
        In c (finalCountryList directory p) -> iso2 c = code ->
        (forall c', In c' (finalCountryList directory p) ->
                    iso2 c' = code -> c' = c) ->
        setCountry lib directory p code w
        = dispatch lib directory p (CountryTapped c) w).
Proof.
  unfold setCountry. split.
  - intros Habsent.
    destruct (find (fun c => str_eqb (iso2 c) code)
                   (finalCountryList directory p)) as [c|] eqn:F;
      [|reflexivity].
    apply find_iso2_some in F. destruct F as [Hin E].
    exfalso. apply (Habsent c Hin E).
  - intros c Hin E Huniq.
    destruct (find (fun c => str_eqb (iso2 c) code)
                   (finalCountryList directory p)) as [c'|] eqn:F.
    + apply find_iso2_some in F. destruct F as [Hin' E'].
      rewrite (Huniq c' Hin' E'). reflexivity.
    + exfalso. apply (@find_iso2_none _ _ F c Hin E).
Qed.

Lemma setCountry_lookup_witness :
  setCountry toyLib sampleDirectory (withLists None (Some [lit "TR"]) None)
    (lit "TR") (showing US (lit "202"))
  = (Normal tt, showing US (lit "202"))
  /\ setCountry toyLib sampleDirectory noProps (lit "TR") (showing US (lit "202"))
     = handleSelectCountry toyLib TR (showing US (lit "202")).
Proof.
  split.
  - apply (proj1 (setCountry_lookup toyLib sampleDirectory
                    (withLists None (Some [lit "TR"]) None) (lit "TR")
                    (showing US (lit "202")))).
    intros c Hin. vm_compute in Hin.
    destruct Hin as [<-|[<-|[<-|[]]]]; discriminate.
  - apply (proj2 (setCountry_lookup toyLib sampleDirectory noProps (lit "TR")
                    (showing US (lit "202"))) TR).
    + vm_compute. tauto.
    + reflexivity.
    + intros c Hin. vm_compute in Hin.
      destruct Hin as [<-|[<-|[<-|[<-|[]]]]]; intros E;
        try reflexivity; discriminate.
Defined.

(** ** Reconciliation with the value prop *)

(** With the ref set, the effect clears it and does nothing else. *)
Lemma syncValue_consumes_guard (lib : PhoneLib) (directory : list Country)
    (p : Props) (value : str) (w : Widget) :
  isInternalChange w = true ->
  syncValue lib directory p value w
  = (Normal tt,
     {| isOpen := isOpen w; internalNational := internalNational w;
        selectedCountry := selectedCountry w; searchQuery := searchQuery w;
        isInternalChange := false;
        onChangeCalls := onChangeCalls w; timers := timers w |}).
Proof.
  intros G. unfold syncValue, bind, read. rewrite G. reflexivity.
Qed.

(** What the effect does once the number to go by is known: [r] is the
    value of [parsed] when the effect tests [parsed && parsed.country]. *)
Lemma syncValue_decided (lib : PhoneLib) (directory : list Country)
    (p : Props) (value : str) (w : Widget) (r : option PhoneNumber) :
  let selected := selectedCountry w in
  let final := finalCountryList directory p in
  let scoped := parsePhoneNumber lib value (Some (iso2 selected)) in
  let unscoped := parsePhoneNumber lib value None in
  isInternalChange w = false ->
  value <> [] ->
  (scoped = ParseReturns r /\ missingOrInvalid r = false)
  \/ (exists r0, scoped = ParseReturns r0 /\ missingOrInvalid r0 = true
                  /\ unscoped = ParseReturns r)
  \/ (scoped = ParseReturns r /\ missingOrInvalid r = true
       /\ unscoped = ParseThrows) ->
  syncValue lib directory p value w
  = (Normal tt,
     {| isOpen := isOpen w;
        internalNational :=
          match parsedCountry r with
          | Some c => nationalOr lib c value
          | None => value
          end;
        selectedCountry :=
          match parsedCountry r with
          | Some c =>
              if str_eqb c (iso2 selected) then selected
              else match find (fun x => str_eqb (iso2 x) c) final with
                   | Some n => n
                   | None => selected
                   end
          | None => selected
          end;
        searchQuery := searchQuery w;
        isInternalChange := isInternalChange w;
        onChangeCalls := onChangeCalls w; timers := timers w |}).
Proof.
  intros selected final scoped unscoped Hguard Hvalue Hr.
  unfold syncValue, bind, read. cbv beta iota.
  set (guard := isInternalChange w) at 1.
  replace guard with false by (subst guard; symmetry; exact Hguard).
  clear guard.
  destruct value as [|ch rest]; [congruence|].
  cbn [truthy negb].
  unfold tryCatch, callParse, ret.
  fold selected. fold scoped. fold unscoped. fold final.
  destruct Hr as [[S M]|[[r0 [S [M U]]]|[S [M U]]]];
    rewrite S, M, ?U; cbv beta iota;
    (destruct (parsedCountry r) as [c|]; [|reflexivity]);
    unfold nationalOr, callLib;
    destruct (asYouType_input lib c (ch :: rest));
    destruct (asYouType_getNumber lib c (ch :: rest));
    destruct (str_eqb c (iso2 selected)); cbn [negb]; try reflexivity;
    destruct (find (fun c0 => str_eqb (iso2 c0) c) final); reflexivity.
Qed.

Lemma syncValue_scoped_throws (lib : PhoneLib) (directory : list Country)
    (p : Props) (value : str) (w : Widget) :
  isInternalChange w = false ->
  parsePhoneNumber lib value (Some (iso2 (selectedCountry w))) = ParseThrows ->
  syncValue lib directory p value w = setInternalNational value w.
Proof.
  intros Hguard S. unfold syncValue, bind, read. rewrite Hguard.
  destruct value as [|ch rest]; [reflexivity|].
  cbn [truthy negb]. unfold tryCatch, callParse. rewrite S. reflexivity.
Qed.

Lemma syncValue_empty (lib : PhoneLib) (directory : list Country)
    (p : Props) (w : Widget) :
  isInternalChange w = false ->
  syncValue lib directory p [] w = setInternalNational [] w.
Proof.
  intros Hguard. unfold syncValue, bind, read. rewrite Hguard. reflexivity.
Qed.

(** C4 (as amended): with the ref unset the effect never throws and touches
    only the displayed text and the selected country.  An empty value clears
    the displayed text and nothing else.  Otherwise the value is first parsed
    with the selected country as default.  If that call throws, the raw value
    is displayed and the selection stays.  If it returns a valid number, that
    number decides.  If it returns no number or an invalid one, the value is
    parsed again without a default country: what that call returns decides,
    also when it returns no number, and when it throws the result of the first
    call decides.  A deciding number with a country different from the
    selected one switches the selection to the entry of the filtered list with
    that code, when there is one; the displayed text is then the NATIONAL
    format of the number of the formatter for that country (the raw value when
    the formatter has none or throws).  Without a deciding number, or without a country
    on it, the raw value is displayed and the selection stays. *)
Theorem syncValue_reconciles (lib : PhoneLib) (directory : list Country)
    (p : Props) (value : str) (w : Widget)
    (Hguard : isInternalChange w = false) :
  let selected := selectedCountry w in
  let final := finalCountryList directory p in
  let scoped := parsePhoneNumber lib value (Some (iso2 selected)) in
  let unscoped := parsePhoneNumber lib value None in
  let w' := after (syncValue lib directory p value) w in
  let decidedBy (r : option PhoneNumber) : Prop :=
    (forall c, parsedCountry r = Some c ->
       internalNational w' = nationalOr lib c value
       /\ (c = iso2 selected -> selectedCountry w' = selected)
       /\ (c <> iso2 selected ->
           forall n, find (fun x => str_eqb (iso2 x) c) final = Some n ->
                     selectedCountry w' = n)
       /\ (c <> iso2 selected ->
           find (fun x => str_eqb (iso2 x) c) final = None ->
           selectedCountry w' = selected))
    /\ (parsedCountry r = None ->
        internalNational w' = value /\ selectedCountry w' = selected) in
  completion (syncValue lib directory p value) w = Normal tt
  /\ isOpen w' = isOpen w
  /\ searchQuery w' = searchQuery w
  /\ isInternalChange w' = false
  /\ onChangeCalls w' = onChangeCalls w
  /\ timers w' = timers w
  /\ (value = [] -> internalNational w' = [] /\ selectedCountry w' = selected)
  /\ (value <> [] ->
      (forall n, scoped = ParseReturns (Some n) -> pn_isValid n = true ->
                 decidedBy (Some n))
      /\ (forall r u, scoped = ParseReturns r -> missingOrInvalid r = true ->
                      unscoped = ParseReturns u -> decidedBy u)
      /\ (forall r, scoped = ParseReturns r -> missingOrInvalid r = true ->
                    unscoped = ParseThrows -> decidedBy r)
      /\ (scoped = ParseThrows ->
          internalNational w' = value /\ selectedCountry w' = selected)).
Proof.
  intros selected final scoped unscoped w' decidedBy.
  assert (Hdecided : forall r,
            value <> [] ->
            (scoped = ParseReturns r /\ missingOrInvalid r = false)
            \/ (exists r0, scoped = ParseReturns r0 /\ missingOrInvalid r0 = true
                            /\ unscoped = ParseReturns r)
            \/ (scoped = ParseReturns r /\ missingOrInvalid r = true
                 /\ unscoped = ParseThrows) ->
            decidedBy r).
  { intros r Hv Hr. subst decidedBy w'. unfold after. cbv beta.
    rewrite (@syncValue_decided lib directory p value w r Hguard Hv Hr). simpl.
    fold selected. fold final. split.
    - intros c Hc. rewrite Hc. split; [reflexivity|]. split; [|split].
      + intros ->. rewrite str_eqb_refl. reflexivity.
      + intros Hne n F. rewrite F.
        destruct (str_eqb c (iso2 selected)) eqn:E; [|reflexivity].
        apply str_eqb_eq in E. contradiction.
      + intros Hne F. rewrite F.
        destruct (str_eqb c (iso2 selected)); reflexivity.
    - intros Hc. rewrite Hc. split; reflexivity. }
  assert (Hshape :
            completion (syncValue lib directory p value) w = Normal tt
            /\ isOpen w' = isOpen w /\ searchQuery w' = searchQuery w
            /\ isInternalChange w' = false
            /\ onChangeCalls w' = onChangeCalls w /\ timers w' = timers w).
  { subst w'. unfold after, completion.
    destruct value as [|ch rest].
    - rewrite syncValue_empty by exact Hguard. simpl. tauto.
    - destruct scoped as [|r] eqn:S.
      + rewrite syncValue_scoped_throws by assumption. simpl. tauto.
      + assert (Hv : ch :: rest <> []) by discriminate.
        destruct (missingOrInvalid r) eqn:M.
        * destruct unscoped as [|u] eqn:U.
          -- rewrite (@syncValue_decided lib directory p _ w r Hguard Hv)
               by (right; right; tauto).
             simpl. tauto.
          -- rewrite (@syncValue_decided lib directory p _ w u Hguard Hv)
               by (right; left; exists r; tauto).
             simpl. tauto.
        * rewrite (@syncValue_decided lib directory p _ w r Hguard Hv)
            by (left; tauto).
          simpl. tauto. }
  destruct Hshape as [H1 [H2 [H3 [H4 [H5 H6]]]]].
  repeat (split; [assumption|]). split.
  - intros ->. subst w'. unfold after.
    rewrite syncValue_empty by exact Hguard. split; reflexivity.
  - intros Hv. split; [|split; [|split]].
    + intros n S V. apply Hdecided; [exact Hv|]. left. split; [exact S|].
      simpl. rewrite V. reflexivity.
    + intros r u S M U. apply Hdecided; [exact Hv|]. right; left.
      exists r; tauto.
    + intros r S M U. apply Hdecided; [exact Hv|]. right; right. tauto.
    + intros S. subst w'. unfold after.
      rewrite syncValue_scoped_throws by assumption. split; reflexivity.
Qed.

Lemma syncValue_reconciles_witness :
  let w := showing TR (lit "555") in
  let value := lit "+12025550123" in
  let w' := after (syncValue toyLib sampleDirectory noProps value) w in
  isInternalChange w = false
  /\ selectedCountry w' = US
  /\ internalNational w' = lit "2025550123".
Proof.
  intros w value w'. split; [reflexivity|].
  destruct (@syncValue_reconciles toyLib sampleDirectory noProps value w eq_refl)
    as [_ [_ [_ [_ [_ [_ [_ Hvalue]]]]]]].
  assert (Hne : value <> []) by discriminate.
  destruct (Hvalue Hne) as [Hvalid _].
  destruct (Hvalid (toyNumber (Some (lit "US")) (lit "1") (lit "2025550123"))
              eq_refl eq_refl) as [Hcountry _].
  destruct (Hcountry (lit "US") eq_refl) as [Htext [_ [Hswitch _]]].
  split.
  - apply Hswitch; [discriminate | reflexivity].
  - exact Htext.
Defined.

(** C4, as stated, fails when the parse with the selected country throws:
    the value is not parsed a second time.  Here the parse without a country
    would return a valid German number and Germany is in the list, but the
    selection stays on the US and the raw value is displayed. *)
Lemma syncValue_scoped_throw_is_final :
  let w := showing US [] in
  let value := lit "+4930123456" in
  let w' := after (syncValue strictLib sampleDirectory noProps value) w in
  isInternalChange w = false
  /\ parsePhoneNumber strictLib value (Some (iso2 (selectedCountry w)))
     = ParseThrows
  /\ parsePhoneNumber strictLib value None
     = ParseReturns (Some (toyNumber (Some (lit "DE")) (lit "49") (lit "30123456")))
  /\ find (fun c => str_eqb (iso2 c) (lit "DE"))
          (finalCountryList sampleDirectory noProps) = Some DE
  /\ selectedCountry w' = US
  /\ internalNational w' = value.
Proof. repeat split. Qed.

(** ** The reentrancy guard *)

(** A keystroke that the formatter accepts sets the ref, the next run of
    the effect clears it and reconciles nothing, and the run after that
    reconciles again. *)
Lemma keystroke_echo_skipped_once (lib : PhoneLib) (directory : list Country)
    (p : Props) (text value formatted : str) (w : Widget) :
  strictCharCheck text = true ->
  asYouType_input lib (iso2 (selectedCountry w)) text = LibReturns formatted ->
  let w1 := after (handleTextChange lib text) w in
  let w2 := after (syncValue lib directory p value) w1 in
  isInternalChange w1 = true
  /\ isInternalChange w2 = false
  /\ internalNational w2 = internalNational w1
  /\ selectedCountry w2 = selectedCountry w1
  /\ internalNational (after (syncValue lib directory p []) w2) = [].
Proof.
  intros H Hf w1 w2. subst w2 w1. unfold after.
  rewrite handleTextChange_run by exact H. rewrite Hf. cbn [snd].
  rewrite syncValue_consumes_guard by reflexivity. cbn [snd].
  rewrite syncValue_empty by reflexivity.
  repeat split.
Qed.

(** The path from a country selection to its emission never writes the
    ref. *)
Lemma select_and_emit_keep_guard (lib : PhoneLib) (country : Country)
    (rawDigits : str) (w : Widget) :
  isInternalChange (after (handleSelectCountry lib country) w)
  = isInternalChange w
  /\ isInternalChange (after (deferredEmit lib rawDigits country) w)
     = isInternalChange w
  /\ isInternalChange (after (runTimer lib) w) = isInternalChange w.
Proof.
  unfold after. split; [|split].
  - rewrite handleSelectCountry_run.
    destruct (asYouType_input lib (iso2 country)
                (stripNonDigits (internalNational w))); reflexivity.
  - rewrite deferredEmit_run. reflexivity.
  - unfold runTimer, bind, popTimer.
    destruct (timers w) as [|[raw c] rest]; [reflexivity|].
    rewrite deferredEmit_run. reflexivity.
Qed.

(** C1 at a failing input: the US is selected and "202555" is displayed; the
    user picks Turkey and the timer fires.  [onChange] has been called with
    "+90202555", and the ref is still unset, so when the host passes that
    value back the effect reconciles it instead of skipping it: here the
    displayed text "202555" is replaced by the canonical value.  After the
    same digits typed under Turkey the ref is set and the echo is skipped. *)
Theorem deferred_emission_echo_not_skipped :
  let w1 := after (handleSelectCountry toyLib TR) (showing US (lit "202555")) in
  let w2 := after (runTimer toyLib) w1 in
  let w3 := after (syncValue toyLib sampleDirectory noProps (lit "+90202555")) w2 in
  let k1 := after (handleTextChange toyLib (lit "202555")) (showing TR []) in
  let k2 := after (syncValue toyLib sampleDirectory noProps (lit "+90202555")) k1 in
  (onChangeCalls w1 = [] /\ timers w1 = [(lit "202555", TR)])
  /\ (onChangeCalls w2 = [(lit "+90202555", lit "TR")]
      /\ isInternalChange w2 = false
      /\ internalNational w2 = lit "202555")
  /\ internalNational w3 = lit "+90202555"
  /\ (onChangeCalls k1 = [(lit "+90202555", lit "TR")]
      /\ isInternalChange k1 = true
      /\ internalNational k1 = lit "202555")
  /\ (internalNational k2 = lit "202555" /\ isInternalChange k2 = false).
Proof. repeat split. Qed.

(** * Further properties *)

(** ** The country list *)

Lemma finalCountryList_split (directory : list Country) (p : Props) :
  finalCountryList directory p
  = match preferredCountries p with
    | Some ((_ :: _) as codes) =>
        sort (fun a b => (indexOf codes (iso2 a) - indexOf codes (iso2 b))%Z)
             (filter (fun c => includes codes (iso2 c))
                     (finalCountryList directory (withoutPreferred p)))
        ++ filter (fun c => negb (includes codes (iso2 c)))
                  (finalCountryList directory (withoutPreferred p))
    | _ => finalCountryList directory (withoutPreferred p)
    end.
Proof.
  unfold finalCountryList, withoutPreferred; simpl.
  destruct (preferredCountries p) as [[|c r]|]; reflexivity.
Qed.

Lemma finalCountryList_restricted_In (directory : list Country) (p : Props)
    (c : Country) :
  In c (finalCountryList directory (withoutPreferred p))
  <-> In c directory
      /\ match allowedCountries p with
         | Some ((_ :: _) as allowed) => includes allowed (iso2 c) = true
         | _ => True
         end
      /\ match excludedCountries p with
         | Some excluded => includes excluded (iso2 c) = false
         | None => True
         end.
Proof.
  unfold finalCountryList, withoutPreferred; simpl.
  destruct (allowedCountries p) as [[|a allowed]|];
    destruct (excludedCountries p) as [[|e excluded]|];
    rewrite ?filter_In, ?negb_true_iff; simpl; tauto.
Qed.

Lemma finalCountryList_permutation (directory : list Country) (p : Props) :
  Permutation (finalCountryList directory p)
              (finalCountryList directory (withoutPreferred p)).
Proof.
  rewrite finalCountryList_split.
  destruct (preferredCountries p) as [[|c r]|]; try reflexivity.
  etransitivity;
    [|apply (filter_split_permutation (fun x => includes (c :: r) (iso2 x)))].
  apply Permutation_app_tail, filter_sort_permutation.
Qed.

Lemma finalCountryList_In_directory (directory : list Country) (p : Props)
    (c : Country) :
  In c (finalCountryList directory p) -> In c directory.
Proof.
  intros H. apply (Permutation_in _ (finalCountryList_permutation directory p)) in H.
  apply finalCountryList_restricted_In in H. tauto.
Qed.

(** X1: a country is in the filtered list exactly when it is in the
    directory, its code is in [allowedCountries] if that prop is a non-empty
    array, and its code is not in [excludedCountries]; [preferredCountries]
    has no say in it. *)
Theorem finalCountryList_membership (directory : list Country) (p : Props)
    (c : Country) :
  In c (finalCountryList directory p)
  <-> In c directory
      /\ match allowedCountries p with
         | Some ((_ :: _) as allowed) => includes allowed (iso2 c) = true
         | _ => True
         end
      /\ match excludedCountries p with
         | Some excluded => includes excluded (iso2 c) = false
         | None => True
         end.
Proof.
  rewrite <- finalCountryList_restricted_In. split; intros H.
  - apply (Permutation_in _ (finalCountryList_permutation directory p)), H.
  - apply (Permutation_in _ (Permutation_sym
                               (finalCountryList_permutation directory p))), H.
Qed.

(** X2: [preferredCountries] only reorders: the filtered list with the prop
    is a permutation of the filtered list without it, so no country is lost
    or shown twice because of it. *)
Theorem preferredCountries_only_reorders (directory : list Country) (p : Props) :
  Permutation (finalCountryList directory p)
              (finalCountryList directory (withoutPreferred p))
  /\ List.length (finalCountryList directory p)
     = List.length (finalCountryList directory (withoutPreferred p)).
Proof.
  split; [apply finalCountryList_permutation|].
  apply Permutation_length, finalCountryList_permutation.
Qed.

Lemma indexOf_from_range (arr : list str) (x : str) (i : Z) :
  indexOf_from arr x i = (-1)%Z \/ (i <= indexOf_from arr x i)%Z.
Proof.
  revert i; induction arr as [|y arr IH]; intros i; simpl; [left; reflexivity|].
  destruct (str_eqb y x); [right; lia|].
  destruct (IH (i + 1)%Z); [left; assumption | right; lia].
Qed.

Lemma indexOf_zero (first : str) (rest : list str) (x : str) :
  indexOf (first :: rest) x = 0%Z <-> x = first.
Proof.
  unfold indexOf; simpl. destruct (str_eqb first x) eqn:E.
  - apply str_eqb_eq in E. split; congruence.
  - split.
    + intros H. change (0 + 1)%Z with 1%Z in H. destruct (indexOf_from_range rest x 1); lia.
    + intros ->. rewrite str_eqb_refl in E. discriminate.
Qed.

(** X3: when the filtered list has an entry with the first code of
    [preferredCountries], such an entry is at the top of the list. *)
Theorem first_preferred_on_top (directory : list Country) (p : Props)
    (first : str) (rest : list str) (m : Country)
    (Hpref : preferredCountries p = Some (first :: rest))
    (Hin : In m (finalCountryList directory p))
    (Hcode : iso2 m = first) :
  exists c tail, finalCountryList directory p = c :: tail /\ iso2 c = first.
Proof.
  apply (Permutation_in _ (finalCountryList_permutation directory p)) in Hin.
  rewrite finalCountryList_split, Hpref, sort_preferred.
  set (l := finalCountryList directory (withoutPreferred p)) in *.
  unfold positionsOf. cbn [List.length seq flat_map].
  assert (Hm : In m (membersAt (first :: rest) l 0)).
  { unfold membersAt. apply filter_In. split; [exact Hin|].
    apply Z.eqb_eq. apply indexOf_zero. exact Hcode. }
  destruct (membersAt (first :: rest) l 0) as [|c tail] eqn:E; [destruct Hm|].
  exists c. eexists. split; [reflexivity|].
  assert (Hc : In c (membersAt (first :: rest) l 0))
    by (rewrite E; left; reflexivity).
  unfold membersAt in Hc. apply filter_In in Hc. destruct Hc as [_ Hc].
  apply Z.eqb_eq in Hc. apply indexOf_zero in Hc. exact Hc.
Qed.

Lemma first_preferred_on_top_witness :
  exists c tail,
    finalCountryList sampleDirectory
      (withLists None (Some [lit "CA"]) (Some [lit "TR"; lit "CA"; lit "DE"]))
    = c :: tail
    /\ iso2 c = lit "TR".
Proof.
  apply (@first_preferred_on_top sampleDirectory
           (withLists None (Some [lit "CA"]) (Some [lit "TR"; lit "CA"; lit "DE"]))
           (lit "TR") [lit "CA"; lit "DE"] TR).
  - reflexivity.
  - vm_compute. tauto.
  - reflexivity.
Defined.

Lemma initialSelectedCountry_In (directory : list Country) (p : Props)
    (c : Country) :
  initialSelectedCountry directory p = Some c -> In c directory.
Proof.
  unfold initialSelectedCountry. intros H.
  destruct (find (fun c => str_eqb (iso2 c) (defaultCountryOrTR p))
                 (finalCountryList directory p)) as [m|] eqn:F; simpl in H.
  - injection H as <-. apply find_iso2_some in F.
    apply (@finalCountryList_In_directory directory p m). tauto.
  - destruct (finalCountryList directory p) as [|f r] eqn:L; simpl in H.
    + destruct directory; [discriminate|]. injection H as <-. left; reflexivity.
    + injection H as <-. apply (@finalCountryList_In_directory directory p f).
      rewrite L. left; reflexivity.
Qed.

(** X4: the initial selected country is [undefined] exactly when the
    directory is empty, and when it is defined it is an entry of the
    directory, whatever the props. *)
Theorem initialSelectedCountry_from_directory (directory : list Country)
    (p : Props) :
  (initialSelectedCountry directory p = None <-> directory = [])
  /\ (forall c, initialSelectedCountry directory p = Some c -> In c directory).
Proof.
  split; [|intros c; apply initialSelectedCountry_In].
  unfold initialSelectedCountry. split.
  - destruct (find _ (finalCountryList directory p)); [discriminate|].
    destruct (finalCountryList directory p); [|discriminate].
    destruct directory; [reflexivity | discriminate].
  - intros ->.
    assert (E : finalCountryList [] p = []).
    { destruct (finalCountryList [] p) as [|c r] eqn:E; [reflexivity|].
      exfalso. apply (@finalCountryList_In_directory [] p c).
      rewrite E. left; reflexivity. }
    rewrite E. reflexivity.
Qed.

Lemma initialSelectedCountry_from_directory_witness :
  initialSelectedCountry sampleDirectory
    (withLists (Some [lit "XX"]) None None) = Some CA
  /\ In CA sampleDirectory.
Proof.
  assert (E : initialSelectedCountry sampleDirectory
                (withLists (Some [lit "XX"]) None None) = Some CA)
    by reflexivity.
  split; [exact E|].
  apply (proj2 (initialSelectedCountry_from_directory sampleDirectory
                  (withLists (Some [lit "XX"]) None None)) CA E).
Defined.

(** ** What every handler leaves alone *)

(** The effect completes normally, writes at most the displayed text, the
    selected country and the ref, and selects an entry of the filtered list
    if it selects at all. *)
Lemma syncValue_frame (lib : PhoneLib) (directory : list Country) (p : Props)
    (value : str) (w : Widget) :
  exists text country,
    syncValue lib directory p value w
    = (Normal tt,
       {| isOpen := isOpen w; internalNational := text;
          selectedCountry := country; searchQuery := searchQuery w;
          isInternalChange := false;
          onChangeCalls := onChangeCalls w; timers := timers w |})
    /\ (country = selectedCountry w
        \/ In country (finalCountryList directory p)).
Proof.
  destruct (isInternalChange w) eqn:G.
  { exists (internalNational w), (selectedCountry w).
    rewrite syncValue_consumes_guard by exact G. auto. }
  destruct value as [|ch rest].
  { exists [], (selectedCountry w). rewrite syncValue_empty by exact G.
    unfold setInternalNational. rewrite G. auto. }
  assert (Hv : ch :: rest <> []) by discriminate.
  assert (Hdecided : forall r,
            (parsePhoneNumber lib (ch :: rest) (Some (iso2 (selectedCountry w)))
             = ParseReturns r /\ missingOrInvalid r = false)
            \/ (exists r0,
                  parsePhoneNumber lib (ch :: rest)
                    (Some (iso2 (selectedCountry w))) = ParseReturns r0
                  /\ missingOrInvalid r0 = true
                  /\ parsePhoneNumber lib (ch :: rest) None = ParseReturns r)
            \/ (parsePhoneNumber lib (ch :: rest)
                  (Some (iso2 (selectedCountry w))) = ParseReturns r
                /\ missingOrInvalid r = true
                /\ parsePhoneNumber lib (ch :: rest) None = ParseThrows) ->
            exists text country,
              syncValue lib directory p (ch :: rest) w
              = (Normal tt,
                 {| isOpen := isOpen w; internalNational := text;
                    selectedCountry := country; searchQuery := searchQuery w;
                    isInternalChange := false;
                    onChangeCalls := onChangeCalls w; timers := timers w |})
              /\ (country = selectedCountry w
                  \/ In country (finalCountryList directory p))).
  { intros r Hr.
    rewrite (@syncValue_decided lib directory p (ch :: rest) w r G Hv Hr).
    rewrite G. eexists. eexists. split; [reflexivity|].
    destruct (parsedCountry r) as [c|]; [|left; reflexivity].
    destruct (str_eqb c (iso2 (selectedCountry w))); [left; reflexivity|].
    destruct (find (fun x => str_eqb (iso2 x) c) (finalCountryList directory p))
      as [n|] eqn:F; [|left; reflexivity].
    right. apply find_iso2_some in F. tauto. }
  destruct (parsePhoneNumber lib (ch :: rest) (Some (iso2 (selectedCountry w))))
    as [|r] eqn:S.
  { exists (ch :: rest), (selectedCountry w).
    rewrite syncValue_scoped_throws by assumption.
    unfold setInternalNational. rewrite G. auto. }
  destruct (missingOrInvalid r) eqn:M.
  - destruct (parsePhoneNumber lib (ch :: rest) None) as [|u] eqn:U.
    + apply (Hdecided r). right; right. tauto.
    + apply (Hdecided u). right; left. exists r. tauto.
  - apply (Hdecided r). left. tauto.
Qed.

(** What one event can do to the widget, whether its handler returns or
    throws. *)
Lemma dispatch_frame (lib : PhoneLib) (directory : list Country) (p : Props)
    (e : Event) (w : Widget) :
  exists r w' l,
    dispatch lib directory p e w = (r, w')
    /\ onChangeCalls w' = onChangeCalls w ++ l
    /\ (List.length l <= 1)%nat
    /\ match e with
       | TextChanged _ | TimerFired => True
       | _ => l = []
       end
    /\ (selectedCountry w' = selectedCountry w
        \/ match e with
           | CountryTapped c => selectedCountry w' = c
           | SetCountryCalled _ | ValueUpdated _ =>
               In (selectedCountry w') (finalCountryList directory p)
           | _ => False
           end)
    /\ (isOpen w' = isOpen w \/ isOpen w' = false
        \/ (e = FlagPressed /\ disabled p = false))
    /\ (searchQuery w' = searchQuery w
        \/ match e with
           | CountryTapped _ | SetCountryCalled _ => searchQuery w' = []
           | SearchTyped q => searchQuery w' = q
           | _ => False
           end).
Proof.
  destruct e as [text|c|code|value| | | | |q]; simpl.
  - destruct (strictCharCheck text) eqn:A.
    + rewrite handleTextChange_run by exact A.
      destruct (asYouType_input lib (iso2 (selectedCountry w)) text).
      * destruct (emission_length lib (selectedCountry w) (stripNonDigits text))
          as [Hl _].
        eexists. eexists.
        exists (emission lib (selectedCountry w) (stripNonDigits text)).
        split; [reflexivity|]. simpl. auto 10.
      * exists Thrown, w, []. rewrite app_nil_r. simpl. auto 10.
    + exists (Normal tt), w, []. unfold handleTextChange. rewrite A. simpl.
      rewrite app_nil_r. auto 10.
  - rewrite handleSelectCountry_run.
    destruct (asYouType_input lib (iso2 c) (stripNonDigits (internalNational w))).
    + eexists. eexists. exists []. split; [reflexivity|]. simpl.
      rewrite app_nil_r. auto 10.
    + exists Thrown, w, []. rewrite app_nil_r. simpl. auto 10.
  - unfold setCountry.
    destruct (find (fun c => str_eqb (iso2 c) code) (finalCountryList directory p))
      as [c|] eqn:F.
    + rewrite handleSelectCountry_run. apply find_iso2_some in F.
      destruct (asYouType_input lib (iso2 c)
                  (stripNonDigits (internalNational w))).
      * eexists. eexists. exists []. split; [reflexivity|]. simpl.
        rewrite app_nil_r.
        split; [reflexivity|]. split; [lia|].
        split; [reflexivity|]. split; [right; tauto|]. auto.
      * exists Thrown, w, []. rewrite app_nil_r. simpl. auto 10.
    + exists (Normal tt), w, []. simpl. rewrite app_nil_r. auto 10.
  - destruct (syncValue_frame lib directory p value w) as [t [c [E Hc]]].
    eexists. eexists. exists []. split; [exact E|]. simpl. rewrite app_nil_r.
    split; [reflexivity|]. split; [lia|]. split; [reflexivity|].
    split; [destruct Hc; auto|]. auto.
  - unfold runTimer, bind, popTimer.
    destruct (timers w) as [|[raw c] rest].
    + exists (Normal tt), w, []. simpl. rewrite app_nil_r. auto 10.
    + rewrite deferredEmit_run.
      destruct (emission_length lib c raw) as [Hl _].
      eexists. eexists. exists (emission lib c raw).
      split; [reflexivity|]. simpl. auto 10.
  - unfold toggleDropdown. destruct (disabled p) eqn:D.
    + exists (Normal tt), w, []. simpl. rewrite app_nil_r. auto 10.
    + eexists. eexists. exists []. split; [reflexivity|]. simpl.
      rewrite app_nil_r. auto 10.
  - eexists. eexists. exists []. split; [reflexivity|]. simpl.
    rewrite app_nil_r. auto 10.
  - unfold keyboardHide. destruct (pickerType p) as [[|]|];
      eexists; eexists; exists []; (split; [reflexivity|]); simpl;
      rewrite app_nil_r; auto 10.
  - eexists. eexists. exists []. split; [reflexivity|]. simpl.
    rewrite app_nil_r. auto 10.
Qed.

Lemma emission_nil (lib : PhoneLib) (country : Country) (digits : str) :
  emission lib country digits = [] ->
  asYouType_input lib (iso2 country) digits = LibThrows
  \/ asYouType_getNumber lib (iso2 country) digits = LibThrows.
Proof.
  unfold emission.
  destruct (asYouType_input lib (iso2 country) digits); [|auto].
  destruct (asYouType_getNumber lib (iso2 country) digits);
    [discriminate | auto].
Qed.

(** X5: a handler throws only when the formatter throws.  Whatever
    [parsePhoneNumber] does, the value-sync effect and the picker events
    complete normally, and a text change, a country tap, a call of
    [setCountry] and a timer callback complete normally unless a use of the
    formatter throws. *)
Theorem handlers_throw_only_with_formatter (lib : PhoneLib)
    (directory : list Country) (p : Props) (e : Event) (w : Widget)
    (Hthrown : completion (dispatch lib directory p e) w = Thrown) :
  match e with
  | TextChanged _ | CountryTapped _ | SetCountryCalled _ | TimerFired => True
  | _ => False
  end
  /\ exists country text,
       asYouType_input lib country text = LibThrows
       \/ asYouType_getNumber lib country text = LibThrows.
Proof.
  unfold completion in Hthrown.
  destruct e as [text|c|code|value| | | | |q]; simpl in Hthrown.
  - split; [exact I|].
    destruct (strictCharCheck text) eqn:A.
    + rewrite handleTextChange_run in Hthrown by exact A.
      destruct (asYouType_input lib (iso2 (selectedCountry w)) text) eqn:F.
      * cbn [fst] in Hthrown.
        destruct (emission lib (selectedCountry w) (stripNonDigits text)) eqn:E;
          [|discriminate].
        exists (iso2 (selectedCountry w)), (stripNonDigits text).
        apply (emission_nil _ _ _ E).
      * exists (iso2 (selectedCountry w)), text. left. exact F.
    + unfold handleTextChange in Hthrown. rewrite A in Hthrown. discriminate.
  - split; [exact I|]. rewrite handleSelectCountry_run in Hthrown.
    destruct (asYouType_input lib (iso2 c) (stripNonDigits (internalNational w)))
      eqn:F; [discriminate|].
    exists (iso2 c), (stripNonDigits (internalNational w)). left. exact F.
  - split; [exact I|]. unfold setCountry in Hthrown.
    destruct (find (fun c => str_eqb (iso2 c) code) (finalCountryList directory p))
      as [c|]; [|discriminate].
    rewrite handleSelectCountry_run in Hthrown.
    destruct (asYouType_input lib (iso2 c) (stripNonDigits (internalNational w)))
      eqn:F; [discriminate|].
    exists (iso2 c), (stripNonDigits (internalNational w)). left. exact F.
  - destruct (syncValue_frame lib directory p value w) as [t [c [E _]]].
    rewrite E in Hthrown. discriminate.
  - split; [exact I|]. unfold runTimer, bind, popTimer in Hthrown.
    destruct (timers w) as [|[raw c] rest]; [discriminate|].
    rewrite deferredEmit_run in Hthrown. cbn [fst] in Hthrown.
    destruct (emission lib c raw) eqn:E; [|discriminate].
    exists (iso2 c), raw. apply (emission_nil _ _ _ E).
  - unfold toggleDropdown in Hthrown. destruct (disabled p); discriminate.
  - discriminate.
  - unfold keyboardHide in Hthrown.
    destruct (pickerType p) as [[|]|]; discriminate.
  - discriminate.
Qed.

Lemma handlers_throw_only_with_formatter_witness :
  completion (dispatch samoaLib sampleDirectory noProps (CountryTapped WS))
             (showing US (lit "02")) = Thrown
  /\ exists country text,
       asYouType_input samoaLib country text = LibThrows
       \/ asYouType_getNumber samoaLib country text = LibThrows.
Proof.
  assert (H : completion (dispatch samoaLib sampleDirectory noProps
                            (CountryTapped WS)) (showing US (lit "02")) = Thrown)
    by reflexivity.
  split; [exact H|].
  apply (proj2 (@handlers_throw_only_with_formatter samoaLib sampleDirectory
                  noProps (CountryTapped WS) (showing US (lit "02")) H)).
Defined.

(** X6: an event adds at most one call of [onChange] and never removes
    one; only a text change and a timer callback add one.  A new [value]
    prop, a country tap, a call of [setCountry] and the picker events call
    [onChange] not at all. *)
Theorem dispatch_emits_at_most_once (lib : PhoneLib) (directory : list Country)
    (p : Props) (e : Event) (w : Widget) :
  exists l,
    onChangeCalls (after (dispatch lib directory p e) w) = onChangeCalls w ++ l
    /\ (List.length l <= 1)%nat
    /\ match e with
       | TextChanged _ | TimerFired => True
       | _ => l = []
       end.
Proof.
  destruct (dispatch_frame lib directory p e w) as [r [w' [l [E [H1 [H2 [H3 _]]]]]]].
  exists l. unfold after. rewrite E. auto.
Qed.

Lemma dispatch_selected_In (lib : PhoneLib) (directory : list Country)
    (p : Props) (e : Event) (w : Widget) :
  In (selectedCountry w) directory ->
  offered directory p e ->
  In (selectedCountry (after (dispatch lib directory p e) w)) directory.
Proof.
  intros Hw He.
  destruct (dispatch_frame lib directory p e w)
    as [r [w' [l [E [_ [_ [_ [Hs _]]]]]]]].
  unfold after. rewrite E. cbn [snd].
  destruct Hs as [->|Hs]; [exact Hw|].
  destruct e; simpl in *; try contradiction.
  - rewrite Hs. apply (@finalCountryList_In_directory directory p _ He).
  - apply (@finalCountryList_In_directory directory p _ Hs).
  - apply (@finalCountryList_In_directory directory p _ Hs).
Qed.

(** X7: the selected country is always an entry of the directory: it is
    one after mounting, and it stays one through every sequence of events in
    which the countries tapped are entries of the filtered list. *)
Theorem selectedCountry_in_directory (lib : PhoneLib)
    (directory : list Country) (p : Props) (events : list Event)
    (w0 : Widget)
    (Hmount : mount directory p = Some w0)
    (Hoffered : Forall (offered directory p) events) :
  In (selectedCountry (run lib directory p events w0)) directory.
Proof.
  assert (H0 : In (selectedCountry w0) directory).
  { unfold mount in Hmount.
    destruct (initialSelectedCountry directory p) as [c|] eqn:I; [|discriminate].
    injection Hmount as <-. simpl. apply (initialSelectedCountry_In _ _ I). }
  clear Hmount. revert w0 H0.
  induction Hoffered as [|e rest He _ IH]; intros w0 H0; simpl; [exact H0|].
  apply IH. apply dispatch_selected_In; assumption.
Qed.

Lemma selectedCountry_in_directory_witness :
  In (selectedCountry
        (run toyLib sampleDirectory noProps
           [TextChanged (lit "202"); CountryTapped DE;
            ValueUpdated (lit "+12025550123"); TimerFired;
            SetCountryCalled (lit "TR")]
           (showing TR [])))
     sampleDirectory.
Proof.
  apply selectedCountry_in_directory.
  - reflexivity.
  - repeat (apply Forall_cons;
            [first [exact I | vm_compute; tauto]|]).
    apply Forall_nil.
Defined.

(** X8: a closed picker is opened by a press on the flag section of an
    enabled component and by nothing else. *)
Theorem only_flag_press_opens (lib : PhoneLib) (directory : list Country)
    (p : Props) (e : Event) (w : Widget)
    (Hclosed : isOpen w = false)
    (Hopen : isOpen (after (dispatch lib directory p e) w) = true) :
  e = FlagPressed /\ disabled p = false.
Proof.
  destruct (dispatch_frame lib directory p e w)
    as [r [w' [l [E [_ [_ [_ [_ [Ho _]]]]]]]]].
  unfold after in Hopen. rewrite E in Hopen. cbn [snd] in Hopen.
  destruct Ho as [Ho|[Ho|Ho]]; [congruence | congruence | exact Ho].
Qed.

Lemma only_flag_press_opens_witness :
  isOpen (showing US []) = false
  /\ isOpen (after (dispatch toyLib sampleDirectory noProps FlagPressed)
                   (showing US [])) = true
  /\ FlagPressed = FlagPressed /\ disabled noProps = false.
Proof.
  split; [reflexivity|]. split; [reflexivity|].
  apply (@only_flag_press_opens toyLib sampleDirectory noProps FlagPressed
           (showing US [])); reflexivity.
Defined.

(** X9: the search query is written by typing in the search field and by a
    country selection only: every other event, the ones that close the picker
    included, leaves it as it is. *)
Theorem searchQuery_survives (lib : PhoneLib) (directory : list Country)
    (p : Props) (e : Event) (w : Widget)
    (Hother : match e with
              | SearchTyped _ | CountryTapped _ | SetCountryCalled _ => False
              | _ => True
              end) :
  searchQuery (after (dispatch lib directory p e) w) = searchQuery w.
Proof.
  destruct (dispatch_frame lib directory p e w)
    as [r [w' [l [E [_ [_ [_ [_ [_ Hq]]]]]]]]].
  unfold after. rewrite E. cbn [snd].
  destruct Hq as [Hq|Hq]; [exact Hq|].
  destruct e; simpl in *; contradiction.
Qed.

Lemma searchQuery_survives_witness :
  searchQuery (after (dispatch toyLib sampleDirectory noProps KeyboardHidden)
                     (searching US (lit "ger")))
  = lit "ger".
Proof.
  apply (@searchQuery_survives toyLib sampleDirectory noProps KeyboardHidden
           (searching US (lit "ger"))).
  exact I.
Defined.

(** ** What is emitted *)

(** X10: what an accepted keystroke emits depends on the digits of the
    text only.  Once the formatter has returned the text to display, the
    emission is the one for the digits of the typed text under the selected
    country, so two accepted texts with the same digits emit the same. *)
Theorem keystroke_emits_by_digits (lib : PhoneLib) (text text' : str)
    (formatted formatted' : str) (w : Widget)
    (Haccepted : strictCharCheck text = true)
    (Haccepted' : strictCharCheck text' = true)
    (Hformatter : asYouType_input lib (iso2 (selectedCountry w)) text
                  = LibReturns formatted)
    (Hformatter' : asYouType_input lib (iso2 (selectedCountry w)) text'
                   = LibReturns formatted')
    (Hdigits : stripNonDigits text = stripNonDigits text') :
  onChangeCalls (after (handleTextChange lib text) w)
  = onChangeCalls w ++ emission lib (selectedCountry w) (stripNonDigits text)
  /\ onChangeCalls (after (handleTextChange lib text') w)
     = onChangeCalls (after (handleTextChange lib text) w).
Proof.
  unfold after. rewrite !handleTextChange_run by assumption.
  rewrite Hformatter, Hformatter'. cbn [snd onChangeCalls].
  rewrite Hdigits. split; reflexivity.
Qed.

Lemma keystroke_emits_by_digits_witness :
  onChangeCalls (after (handleTextChange toyLib (lit "(202) 555-0123"))
                       (showing US []))
  = [(lit "+12025550123", lit "US")]
  /\ onChangeCalls (after (handleTextChange toyLib (lit "202 555 0123"))
                          (showing US []))
     = onChangeCalls (after (handleTextChange toyLib (lit "(202) 555-0123"))
                            (showing US [])).
Proof.
  apply (@keystroke_emits_by_digits toyLib (lit "(202) 555-0123")
           (lit "202 555 0123") (lit "(202) 555-0123") (lit "202 555 0123")
           (showing US [])); reflexivity.
Defined.

(** X11: the timer callback of a country selection and [emitChange] agree
    on what to emit: for an accepted text, [emitChange] under a country calls
    [onChange] with what the callback calls it with for the digits of that
    text under that country. *)
Theorem emission_paths_agree (lib : PhoneLib) (text : str) (country : Country)
    (w : Widget)
    (Haccepted : strictCharCheck text = true) :
  onChangeCalls (after (emitChange lib text country) w)
  = onChangeCalls (after (deferredEmit lib (stripNonDigits text) country) w).
Proof.
  unfold after.
  rewrite emitChange_canonical by exact Haccepted.
  rewrite deferredEmit_run. reflexivity.
Qed.

Lemma emission_paths_agree_witness :
  onChangeCalls (after (emitChange toyLib (lit "30 12-34") DE) (showing DE []))
  = onChangeCalls (after (deferredEmit toyLib (lit "301234") DE) (showing DE [])).
Proof.
  apply (@emission_paths_agree toyLib (lit "30 12-34") DE (showing DE [])).
  reflexivity.
Defined.



(** X13: timer callbacks run in the order of the selections that queued
    them, one per scheduler turn, and a turn with none pending does nothing.
    Here the formatter returns for both selections. *)
Theorem timers_fire_in_order (lib : PhoneLib) (first second : Country)
    (formatted1 formatted2 : str) (w : Widget)
    (Hidle : timers w = [])
    (Hfirst : asYouType_input lib (iso2 first)
                (stripNonDigits (internalNational w))
              = LibReturns formatted1)
    (Hsecond : asYouType_input lib (iso2 second) (stripNonDigits formatted1)
               = LibReturns formatted2) :
  let w1 := after (handleSelectCountry lib first) w in
  let w2 := after (handleSelectCountry lib second) w1 in
  let w3 := after (runTimer lib) w2 in
  let w4 := after (runTimer lib) w3 in
  onChangeCalls w2 = onChangeCalls w
  /\ onChangeCalls w3
     = onChangeCalls w
       ++ emission lib first (stripNonDigits (internalNational w))
  /\ onChangeCalls w4
     = onChangeCalls w3 ++ emission lib second (stripNonDigits formatted1)
  /\ timers w4 = []
  /\ runTimer lib w4 = (Normal tt, w4).
Proof.
  intros w1 w2 w3 w4. subst w4 w3 w2 w1. unfold after.
  rewrite (handleSelectCountry_run lib first w), Hfirst. cbn [snd].
  rewrite handleSelectCountry_run. cbn [internalNational].
  rewrite Hsecond. cbn [snd].
  unfold runTimer, bind, popTimer. simpl. rewrite Hidle. simpl.
  rewrite !deferredEmit_run. simpl.
  rewrite !deferredEmit_run. simpl. auto.
Qed.

Lemma timers_fire_in_order_witness :
  let w1 := after (handleSelectCountry toyLib DE) (showing US (lit "202 555")) in
  let w2 := after (handleSelectCountry toyLib TR) w1 in
  onChangeCalls (after (runTimer toyLib) (after (runTimer toyLib) w2))
  = [(lit "+49202555", lit "DE"); (lit "+90202555", lit "TR")].
Proof.
  intros w1 w2.
  destruct (@timers_fire_in_order toyLib DE TR (lit "202555") (lit "202555")
              (showing US (lit "202 555")) eq_refl eq_refl eq_refl)
    as [_ [H3 [H4 _]]].
  subst w2 w1. rewrite H4, H3. reflexivity.
Defined.

(** X14: when the formatter has no valid number, the value emitted for a
    text is a plus sign followed by digits only, as long as the calling code
    of the country is made of digits: no character of the typed text other
    than its digits reaches the host. *)
Theorem fallback_value_is_plus_and_digits (lib : PhoneLib) (text : str)
    (country : Country) (w : Widget) (formatted : str)
    (number : option PhoneNumber)
    (Hcode : Forall (fun c => isDigit c = true) (callingCode country))
    (Hinput : asYouType_input lib (iso2 country) (stripNonDigitsPlus text)
              = LibReturns formatted)
    (Hnumber : asYouType_getNumber lib (iso2 country) (stripNonDigitsPlus text)
               = LibReturns number)
    (Hinvalid : completeValid number = None) :
  exists digits,
    onChangeCalls (after (emitChange lib text country) w)
    = onChangeCalls w ++ [(plus_sign :: digits, iso2 country)]
    /\ Forall (fun c => isDigit c = true) digits.
Proof.
  exists (callingCode country ++ stripNonDigits text). split.
  - unfold after. rewrite emitChange_run, Hinput, Hnumber.
    unfold canonicalValue. rewrite Hinvalid. reflexivity.
  - apply Forall_app. split; [exact Hcode | apply stripNonDigits_digits].
Qed.

Lemma fallback_value_is_plus_and_digits_witness :
  exists digits,
    onChangeCalls (after (emitChange toyLib (lit "+(202) 55a") US) (showing US []))
    = [(plus_sign :: digits, lit "US")]
    /\ Forall (fun c => isDigit c = true) digits.
Proof.
  apply (@fallback_value_is_plus_and_digits toyLib (lit "+(202) 55a") US
           (showing US []) (lit "+20255") None).
  - repeat constructor.
  - reflexivity.
  - reflexivity.
  - reflexivity.
Defined.

(** X15: with a formatter that keeps the digits it is given, a country
    selection keeps the digits of the displayed text, and selecting the same
    country again changes neither the text nor the digits queued for
    emission. *)
Theorem reselection_is_stable (lib : PhoneLib) (country : Country) (w : Widget)
    (formatted : str)
    (Hformatter :
       asYouType_input lib (iso2 country) (stripNonDigits (internalNational w))
       = LibReturns formatted)
    (Hdigits : stripNonDigits formatted = stripNonDigits (internalNational w)) :
  let w1 := after (handleSelectCountry lib country) w in
  let w2 := after (handleSelectCountry lib country) w1 in
  stripNonDigits (internalNational w1) = stripNonDigits (internalNational w)
  /\ internalNational w2 = internalNational w1
  /\ selectedCountry w2 = country
  /\ timers w2
     = timers w ++ [(stripNonDigits (internalNational w), country);
                    (stripNonDigits (internalNational w), country)].
Proof.
  intros w1 w2. subst w2 w1. unfold after.
  rewrite (handleSelectCountry_run lib country w), Hformatter. cbn [snd].
  rewrite handleSelectCountry_run. cbn [internalNational].
  rewrite Hdigits, Hformatter.
  cbn [snd internalNational selectedCountry timers].
  rewrite <- app_assoc. auto.
Qed.

Lemma reselection_is_stable_witness :
  let w1 := after (handleSelectCountry toyLib DE) (showing US (lit "(202) 555")) in
  let w2 := after (handleSelectCountry toyLib DE) w1 in
  stripNonDigits (internalNational w1) = lit "202555"
  /\ internalNational w2 = internalNational w1.
Proof.
  intros w1 w2.
  destruct (@reselection_is_stable toyLib DE (showing US (lit "(202) 555"))
              (lit "202555") eq_refl eq_refl) as [Hd [Ht _]].
  split; [exact Hd | exact Ht].
Defined.

(** ** The ref over runs of events *)

Lemma keystrokes_set_guard (lib : PhoneLib) (directory : list Country)
    (p : Props) (texts : list str) (w : Widget) :
  Forall (fun t => strictCharCheck t = true
                   /\ exists formatted,
                        asYouType_input lib (iso2 (selectedCountry w)) t
                        = LibReturns formatted) texts ->
  isInternalChange (run lib directory p (map TextChanged texts) w)
  = match texts with [] => isInternalChange w | _ :: _ => true end
  /\ onChangeCalls (run lib directory p (map TextChanged texts) w)
     = onChangeCalls w
       ++ flat_map (fun t => emission lib (selectedCountry w) (stripNonDigits t))
                   texts.
Proof.
  intros H. revert w H. induction texts as [|t rest IH]; intros w H; simpl.
  - split; [reflexivity | rewrite app_nil_r; reflexivity].
  - inversion H as [|t' rest' [Ht [f Hf]] Hrest]; subst.
    unfold after. rewrite handleTextChange_run by exact Ht. rewrite Hf.
    cbn [snd].
    match goal with
    | |- context [run lib directory p _ ?w1] =>
        destruct (IH w1) as [G L]; [exact Hrest|]
    end.
    rewrite G, L. cbn [selectedCountry onChangeCalls].
    rewrite <- app_assoc.
    split; [destruct rest; reflexivity | reflexivity].
Qed.

(** X16: the ref is a flag, not a counter: however many keystrokes the
    formatter has accepted since the last run of the effect, each with its
    own emission, the next run only clears the ref, whatever the new value
    is, and the run after it reconciles again (here: an empty value clears
    the text). *)
Theorem guard_skips_one_update (lib : PhoneLib) (directory : list Country)
    (p : Props) (texts : list str) (value : str) (w : Widget)
    (Hsome : texts <> [])
    (Haccepted :
       Forall (fun t => strictCharCheck t = true
                        /\ exists formatted,
                             asYouType_input lib (iso2 (selectedCountry w)) t
                             = LibReturns formatted) texts) :
  let w1 := run lib directory p (map TextChanged texts) w in
  let w2 := after (syncValue lib directory p value) w1 in
  let w3 := after (syncValue lib directory p []) w2 in
  onChangeCalls w1
  = onChangeCalls w
    ++ flat_map (fun t => emission lib (selectedCountry w) (stripNonDigits t))
                texts
  /\ isInternalChange w1 = true
  /\ (isInternalChange w2 = false
      /\ internalNational w2 = internalNational w1
      /\ selectedCountry w2 = selectedCountry w1)
  /\ internalNational w3 = [].
Proof.
  intros w1 w2 w3.
  destruct (@keystrokes_set_guard lib directory p texts w Haccepted) as [G L].
  fold w1 in G, L.
  assert (G1 : isInternalChange w1 = true)
    by (rewrite G; destruct texts; [contradiction | reflexivity]).
  split; [exact L|]. split; [exact G1|].
  subst w3 w2. unfold after.
  rewrite syncValue_consumes_guard by exact G1. cbn [snd].
  rewrite syncValue_empty by reflexivity.
  repeat split.
Qed.

Lemma guard_skips_one_update_witness :
  let w1 := run toyLib sampleDirectory noProps
              (map TextChanged [lit "2"; lit "20"; lit "202"]) (showing US []) in
  let w2 := after (syncValue toyLib sampleDirectory noProps (lit "+4930123456")) w1 in
  onChangeCalls w1
  = [(lit "+12", lit "US"); (lit "+120", lit "US"); (lit "+1202", lit "US")]
  /\ internalNational w2 = lit "202"
  /\ selectedCountry w2 = US.
Proof.
  intros w1 w2.
  assert (Hsome : [lit "2"; lit "20"; lit "202"] <> []) by discriminate.
  assert (Hacc : Forall (fun t => strictCharCheck t = true
                                  /\ exists formatted,
                                       asYouType_input toyLib
                                         (iso2 (selectedCountry (showing US []))) t
                                       = LibReturns formatted)
                        [lit "2"; lit "20"; lit "202"]).
  { repeat (apply Forall_cons;
            [split; [reflexivity | eexists; reflexivity]|]).
    apply Forall_nil. }
  destruct (@guard_skips_one_update toyLib sampleDirectory noProps
              [lit "2"; lit "20"; lit "202"] (lit "+4930123456")
              (showing US []) Hsome Hacc)
    as [L [_ [[_ [Ht Hc]] _]]].
  split; [exact L|].
  split; [exact (eq_trans Ht eq_refl) | exact (eq_trans Hc eq_refl)].
Defined.

(** X17: country taps, calls of [setCountry] and timer callbacks never
    write the ref: after any sequence of them it is what it was, also when
    [onChange] has been called in between. *)
Theorem selection_never_writes_guard (lib : PhoneLib)
    (directory : list Country) (p : Props) (events : list Event) (w : Widget)
    (Hselect : Forall (fun e => match e with
                                | CountryTapped _ | SetCountryCalled _
                                | TimerFired => True
                                | _ => False
                                end) events) :
  isInternalChange (run lib directory p events w) = isInternalChange w.
Proof.
  revert w. induction Hselect as [|e rest He _ IH]; intros w; simpl;
    [reflexivity|].
  rewrite IH. destruct e; try contradiction; simpl.
  - apply (select_and_emit_keep_guard lib country [] w).
  - unfold setCountry.
    destruct (find _ (finalCountryList directory p)) as [c|]; [|reflexivity].
    apply (select_and_emit_keep_guard lib c [] w).
  - apply (select_and_emit_keep_guard lib US [] w).
Qed.

Lemma selection_never_writes_guard_witness :
  let w := run toyLib sampleDirectory noProps
             [CountryTapped TR; TimerFired; SetCountryCalled (lit "DE"); TimerFired]
             (showing US (lit "202555")) in
  isInternalChange w = false
  /\ onChangeCalls w = [(lit "+90202555", lit "TR"); (lit "+49202555", lit "DE")].
Proof.
  intros w. split; [|reflexivity].
  apply (@selection_never_writes_guard toyLib sampleDirectory noProps
           [CountryTapped TR; TimerFired; SetCountryCalled (lit "DE"); TimerFired]
           (showing US (lit "202555"))).
  repeat constructor.
Defined.

(** ** The ref methods and the picker *)



(** X19: pressing the flag section twice leaves the widget as it was,
    enabled or not; on a disabled component a single press already does
    nothing, on an enabled one it flips the picker. *)
Theorem flag_press_twice (p : Props) (w : Widget) :
  after (toggleDropdown p) (after (toggleDropdown p) w) = w
  /\ isOpen (after (toggleDropdown p) w)
     = (if disabled p then isOpen w else negb (isOpen w)).
Proof.
  unfold after, toggleDropdown.
  destruct (disabled p); simpl; [split; reflexivity|].
  destruct w as [o n s q g c t]; simpl. rewrite negb_involutive.
  split; reflexivity.
Qed.

(** ** The search field *)

Lemma startsWith_iff (s prefix : str) :
  startsWith s prefix = true <-> exists rest, s = prefix ++ rest.
Proof.
  revert s; induction prefix as [|x prefix IH]; intros s; simpl.
  - split; [intros _; exists s; reflexivity | destruct s; reflexivity].
  - destruct s as [|c s]; simpl.
    + split; [discriminate | intros [rest E]; discriminate].
    + rewrite andb_true_iff, N.eqb_eq, IH. split.
      * intros [-> [rest ->]]. exists rest; reflexivity.
      * intros [rest E]. injection E as -> ->. split; [reflexivity|].
        exists rest; reflexivity.
Qed.

Lemma strIncludes_iff (s sub : str) :
  strIncludes s sub = true <-> exists before rest, s = before ++ sub ++ rest.
Proof.
  induction s as [|c s IH]; cbn [strIncludes];
    rewrite orb_true_iff, startsWith_iff.
  - split.
    + intros [[rest E]|H]; [|discriminate]. exists [], rest. exact E.
    + intros [before [rest E]]. left.
      destruct before as [|b before]; [|discriminate]. exists rest. exact E.
  - rewrite IH. split.
    + intros [[rest E]|[before [rest E]]].
      * exists [], rest. exact E.
      * exists (c :: before), rest. rewrite E. reflexivity.
    + intros [[|b before] [rest E]].
      * left. exists rest. exact E.
      * right. injection E as -> E. exists before, rest. exact E.
Qed.

(** X20: the picker shows a part of the filtered list: with an empty query
    all of it, otherwise entries of it only, and none twice when the filtered
    list has no entry twice. *)
Theorem filteredCountries_narrows (toLowerCase : str -> str)
    (directory : list Country) (p : Props) (w : Widget) :
  (searchQuery w = [] ->
   filteredCountries toLowerCase directory p w = finalCountryList directory p)
  /\ (forall c, In c (filteredCountries toLowerCase directory p w) ->
                In c (finalCountryList directory p))
  /\ (NoDup (map iso2 (finalCountryList directory p)) ->
      NoDup (map iso2 (filteredCountries toLowerCase directory p w))).
Proof.
  unfold filteredCountries. split; [intros ->; reflexivity|].
  destruct (truthy (searchQuery w)); simpl.
  - split; [intros c H; apply filter_In in H; tauto|].
    apply NoDup_map_filter.
  - split; auto.
Qed.

Lemma filteredCountries_narrows_witness :
  filteredCountries asciiLower sampleDirectory noProps (searching US [])
  = [CA; DE; TR; US]
  /\ NoDup (map iso2 (filteredCountries asciiLower sampleDirectory noProps
                        (searching US (lit "1")))).
Proof.
  destruct (filteredCountries_narrows asciiLower sampleDirectory noProps
              (searching US [])) as [Hall _].
  destruct (filteredCountries_narrows asciiLower sampleDirectory noProps
              (searching US (lit "1"))) as [_ [_ Hnodup]].
  split; [exact (Hall eq_refl) | exact (Hnodup sampleDirectory_NoDup)].
Defined.

(** Which entries the picker shows for a non-empty query. *)
Lemma filteredCountries_In_iff (toLowerCase : str -> str)
    (directory : list Country) (p : Props) (w : Widget) (c : Country)
    (Hquery : searchQuery w <> []) :
  In c (filteredCountries toLowerCase directory p w)
  <-> In c (finalCountryList directory p)
      /\ ((exists before rest,
             toLowerCase (name c)
             = before ++ toLowerCase (searchQuery w) ++ rest)
          \/ (exists before rest,
                callingCode c = before ++ toLowerCase (searchQuery w) ++ rest)
          \/ (exists before rest,
                toLowerCase (iso2 c)
                = before ++ toLowerCase (searchQuery w) ++ rest)).
Proof.
  unfold filteredCountries.
  destruct (searchQuery w) as [|ch q] eqn:Q; [contradiction|]. simpl.
  rewrite filter_In, !orb_true_iff, !strIncludes_iff. tauto.
Qed.

(** X21: with a non-empty query an entry of the filtered list is shown
    exactly when the lower-cased query occurs in its lower-cased name, in its
    calling code as it is, or in its lower-cased iso2 code. *)
Theorem filteredCountries_shows (toLowerCase : str -> str)
    (directory : list Country) (p : Props) (w : Widget) (c : Country)
    (Hquery : searchQuery w <> []) :
  In c (filteredCountries toLowerCase directory p w)
  <-> In c (finalCountryList directory p)
      /\ ((exists before rest,
             toLowerCase (name c)
             = before ++ toLowerCase (searchQuery w) ++ rest)
          \/ (exists before rest,
                callingCode c = before ++ toLowerCase (searchQuery w) ++ rest)
          \/ (exists before rest,
                toLowerCase (iso2 c)
                = before ++ toLowerCase (searchQuery w) ++ rest)).
Proof. apply filteredCountries_In_iff, Hquery. Qed.

Lemma filteredCountries_shows_witness :
  In DE (filteredCountries asciiLower sampleDirectory noProps
           (searching US (lit "eRM")))
  /\ In DE (filteredCountries asciiLower sampleDirectory noProps
              (searching US (lit "49")))
  /\ ~ In TR (filteredCountries asciiLower sampleDirectory noProps
                (searching US (lit "49"))).
Proof.
  assert (Hq1 : searchQuery (searching US (lit "eRM")) <> []) by discriminate.
  assert (Hq2 : searchQuery (searching US (lit "49")) <> []) by discriminate.
  split; [|split].
  - apply (proj2 (@filteredCountries_shows asciiLower sampleDirectory noProps
                    (searching US (lit "eRM")) DE Hq1)).
    split; [vm_compute; tauto|]. left. exists (lit "g"), (lit "any"). reflexivity.
  - apply (proj2 (@filteredCountries_shows asciiLower sampleDirectory noProps
                    (searching US (lit "49")) DE Hq2)).
    split; [vm_compute; tauto|]. right; left. exists [], []. reflexivity.
  - intros H. vm_compute in H. destruct H as [H|[]]. discriminate H.
Defined.

(** X22: a longer query never shows more: when the lower-cased old query
    occurs in the lower-cased new one, every entry shown for the new query is
    shown for the old one. *)
Theorem filteredCountries_monotone (toLowerCase : str -> str)
    (directory : list Country) (p : Props) (w w' : Widget) (c : Country)
    (Hextends : exists before rest,
        toLowerCase (searchQuery w')
        = before ++ toLowerCase (searchQuery w) ++ rest)
    (Hquery : searchQuery w' <> [])
    (Hshown : In c (filteredCountries toLowerCase directory p w')) :
  In c (filteredCountries toLowerCase directory p w).
Proof.
  destruct (searchQuery w) as [|ch q] eqn:Q.
  { unfold filteredCountries in *. rewrite Q.
    destruct (searchQuery w'); [contradiction|]. simpl in *.
    apply filter_In in Hshown. tauto. }
  assert (Hq : searchQuery w <> []) by (rewrite Q; discriminate).
  apply (proj2 (@filteredCountries_In_iff toLowerCase directory p w c Hq)).
  apply (proj1 (@filteredCountries_In_iff toLowerCase directory p w' c Hquery))
    in Hshown.
  destruct Hshown as [Hin Hmatch]. split; [exact Hin|].
  destruct Hextends as [b0 [r0 E]]. rewrite E in Hmatch. rewrite Q in *.
  destruct Hmatch as [[b [r H]]|[[b [r H]]|[b [r H]]]];
    [left | right; left | right; right];
    exists (b ++ b0), (r0 ++ r); rewrite H; rewrite <- !app_assoc; reflexivity.
Qed.

Lemma filteredCountries_monotone_witness :
  In DE (filteredCountries asciiLower sampleDirectory noProps
           (searching US (lit "ge"))).
Proof.
  apply (@filteredCountries_monotone asciiLower sampleDirectory noProps
           (searching US (lit "ge")) (searching US (lit "GER")) DE).
  - exists [], (lit "r"). reflexivity.
  - discriminate.
  - vm_compute. tauto.
Defined.

(** ** Typing under one country *)

(** X23: typing never changes the selected country, and every value
    emitted while typing carries the iso2 code of that country, whether the
    texts are accepted or dropped. *)
Theorem typing_keeps_country (lib : PhoneLib) (directory : list Country)
    (p : Props) (texts : list str) (w : Widget) :
  let w' := run lib directory p (map TextChanged texts) w in
  selectedCountry w' = selectedCountry w
  /\ exists calls,
       onChangeCalls w' = onChangeCalls w ++ calls
       /\ (List.length calls <= List.length texts)%nat
       /\ Forall (fun call => snd call = iso2 (selectedCountry w)) calls.
Proof.
  revert w. induction texts as [|t texts IH]; intros w; simpl.
  - split; [reflexivity|]. exists []. rewrite app_nil_r. auto.
  - assert (Hsame : forall w0 : Widget,
              selectedCountry w0 = selectedCountry w ->
              onChangeCalls w0 = onChangeCalls w ->
              selectedCountry (run lib directory p (map TextChanged texts) w0)
              = selectedCountry w
              /\ exists calls,
                   onChangeCalls (run lib directory p (map TextChanged texts) w0)
                   = onChangeCalls w ++ calls
                   /\ (List.length calls <= S (List.length texts))%nat
                   /\ Forall (fun call => snd call = iso2 (selectedCountry w))
                             calls).
    { intros w0 Hs Hc. destruct (IH w0) as [Hs' [calls [Hc' [Hl Hf]]]].
      rewrite Hs in Hs', Hf. rewrite Hc in Hc'.
      split; [exact Hs'|]. exists calls. auto. }
    destruct (strictCharCheck t) eqn:A.
    + unfold after at 1 2. rewrite handleTextChange_run by exact A.
      destruct (asYouType_input lib (iso2 (selectedCountry w)) t);
        [|apply Hsame; reflexivity].
      cbn [snd].
      destruct (emission_length lib (selectedCountry w) (stripNonDigits t))
        as [El Ef].
      match goal with
      | |- context [run lib directory p _ ?w1] =>
          destruct (IH w1) as [Hs [calls [Hc [Hl Hf]]]]
      end.
      cbn [selectedCountry onChangeCalls] in Hs, Hc, Hf.
      split; [exact Hs|].
      eexists. split; [rewrite Hc, <- app_assoc; reflexivity|].
      split; [rewrite length_app; lia|].
      apply Forall_app. split; assumption.
    + unfold after at 1 2. unfold handleTextChange. rewrite A. cbn [negb ret snd].
      apply Hsame; reflexivity.
Qed.
